(** * send_self: a generator that is sent a wrapper of itself

    A shallow embedding of [send_self.py]: the two wrapper classes
    ([WeakGeneratorWrapper], [StrongGeneratorWrapper]) with the operations
    they inherit from [GeneratorWrapperBase], and the [send_self] decorator
    with its launcher [send_self_wrapper].

    The Python objects the module manipulates live in an explicit store:
    generator objects, wrapper objects and weak-reference objects, each
    under its own address.  Every operation is a computation in a small
    state-and-exception monad over that store.

    What the module takes from the language is modelled next to it: the
    generator protocol ([next], [send], [throw], [close]), attribute
    access on [None], and weak references with their callbacks under
    reference counting.  A generator body is a transition function on
    the states of its frame; what a body does to the world outside its
    frame is not tracked, and a body does not resume itself while it
    runs.  An exception that a body raises reaches the caller as it is,
    [StopIteration] included, as in the Python 3.3 the module was
    written for.  The output of [debug] is kept in the trace; the one of
    [__del__] is not, since wrapper objects are never deallocated
    here. *)

From Stdlib Require Import ZArith String List Bool Lia.
From stdpp Require Import base option gmap.

Import ListNotations.
Open Scope string_scope.

(** ** Python values and exceptions *)

Definition gid := nat.   (* address of a generator object *)
Definition wid := nat.   (* address of a wrapper object *)
Definition wrid := nat.  (* address of a weakref.ref object *)

Inductive val : Type :=
| VNone
| VBool (b : bool)
| VInt (z : Z)
| VStr (s : string)
| VGen (g : gid)
| VWrapper (w : wid)
| VWeakref (r : wrid).

Inductive exn_kind : Type :=
| StopIteration
| GeneratorExit
| TypeError
| AttributeError
| RuntimeError
| UserError (name : string).

(** An exception instance: its class and its arguments. *)
Record exn : Type := Exn { kind : exn_kind; exn_args : list val }.

Definition is_StopIteration (e : exn) : bool :=
  match kind e with StopIteration => true | _ => false end.

Definition is_GeneratorExit (e : exn) : bool :=
  match kind e with GeneratorExit => true | _ => false end.

Definition is_None (v : val) : bool :=
  match v with VNone => true | _ => false end.

(** ** Generator bodies

    A generator function is given by the state its frame starts in and by
    what its body does from a frame state when control enters it: either a
    value is sent in (the value of the pending [yield] expression, [None]
    for the very first entry) or an exception is raised at the pending
    [yield].  The body then runs up to its next [yield], returns, or lets
    an exception escape. *)

Inductive entry : Type :=
| Sent (v : val)
| Thrown (e : exn).

Inductive body_result (St : Type) : Type :=
| BYield (v : val) (s : St)
| BReturn (v : val)
| BRaise (e : exn).
Arguments BYield {St} v s.
Arguments BReturn {St} v.
Arguments BRaise {St} e.

(** The life cycle of a generator object. *)
Inductive status (St : Type) : Type :=
| Created (s : St)      (* not started yet *)
| Suspended (s : St)    (* parked at a yield *)
| Finished.             (* returned, raised or closed *)
Arguments Created {St} s.
Arguments Suspended {St} s.
Arguments Finished {St}.

(** ** Wrapper and weak-reference objects *)

(** A finalizer is an opaque Python callable, known by a name. *)
Definition callback := nat.

Record weakref : Type := Weakref {
  wr_target : option gid;          (* [None] once the referent is gone *)
  wr_callback : option callback
}.

(** The two subclasses of [GeneratorWrapperBase] with their attributes.
    [StrongGeneratorWrapper.generator] holds what the wrapper was
    constructed with: a generator object, or [None] (Rocq's [None] here)
    when a dangling weak wrapper was converted. *)
Inductive wrapper : Type :=
| WeakGeneratorWrapper (weak_generator : wrid)
                       (catch_stopiteration debug : bool)
| StrongGeneratorWrapper (generator : option gid)
                         (catch_stopiteration debug : bool).

Definition catch_stopiteration (w : wrapper) : bool :=
  match w with
  | WeakGeneratorWrapper _ c _ | StrongGeneratorWrapper _ c _ => c
  end.

Definition debug (w : wrapper) : bool :=
  match w with
  | WeakGeneratorWrapper _ _ d | StrongGeneratorWrapper _ _ d => d
  end.

Inductive mode : Type := Weak | Strong.

Definition ownership_mode (w : wrapper) : mode :=
  match w with
  | WeakGeneratorWrapper _ _ _ => Weak
  | StrongGeneratorWrapper _ _ _ => Strong
  end.

(** ** Observable events *)

Inductive event : Type :=
| EvCreate (g : gid)                       (* the generator function is called *)
| EvNext (g : gid)                         (* next(generator) *)
| EvSend (g : gid) (v : val)             (* generator.send(v) *)
| EvThrow (g : gid) (e : exn)              (* generator.throw(...) *)
| EvClose (g : gid)                        (* generator.close() *)
| EvWeakrefNew (r : wrid) (g : gid) (cb : option callback)
| EvWeakrefDel (r : wrid)
| EvNewWrapper (w : wid) (m : mode)
| EvCollect (g : gid)                      (* the generator is deallocated *)
| EvCallback (cb : callback) (r : wrid)    (* cb(r) is called *)
| EvPrint (what : string) (args : list val).

(** ** Outcomes

    A computation returns a value, raises a Python exception, or is stuck
    because the store is ill-formed (an address that is in use but not
    allocated). *)

Inductive result (A : Type) : Type :=
| Ret (a : A)
| Raise (e : exn)
| Wrong.
Arguments Ret {A} a.
Arguments Raise {A} e.
Arguments Wrong {A}.

Section Store.

(** The frame states of the generator bodies under consideration, and
    what the bodies do. *)
Context {St : Type}.
Variable body : St -> entry -> body_result St.

Record store : Type := Store {
  gens : gmap gid (status St);
  wrappers : gmap wid wrapper;
  weakrefs : gmap wrid weakref;
  next_gid : gid;
  next_wid : wid;
  next_wrid : wrid;
  trace : list event               (* newest event first *)
}.

Definition empty_store : store :=
  Store ∅ ∅ ∅ 0 0 0 [].

(** ** The monad: a store transformer with an outcome. *)

Definition M (A : Type) : Type := store -> result A * store.

Definition ret {A} (a : A) : M A := fun σ => (Ret a, σ).
Definition raise {A} (e : exn) : M A := fun σ => (Raise e, σ).
Definition wrong {A} : M A := fun σ => (Wrong, σ).

Definition bind {A B} (m : M A) (k : A -> M B) : M B :=
  fun σ =>
    match m σ with
    | (Ret a, σ') => k a σ'
    | (Raise e, σ') => (Raise e, σ')
    | (Wrong, σ') => (Wrong, σ')
    end.

(** [try: m except StopIteration: h] *)
Definition except_StopIteration {A} (m : M A) (h : M A) : M A :=
  fun σ =>
    match m σ with
    | (Raise e, σ') => if is_StopIteration e then h σ' else (Raise e, σ')
    | r => r
    end.

#[global] Instance M_ret : MRet M := @ret.
#[global] Instance M_bind : MBind M := fun A B k m => bind m k.

(** *** Store access *)

Definition log (e : event) (σ : store) : store :=
  Store (gens σ) (wrappers σ) (weakrefs σ)
        (next_gid σ) (next_wid σ) (next_wrid σ) (e :: trace σ).

Definition put_gen (g : gid) (st : status St) (σ : store) : store :=
  Store (<[g := st]> (gens σ)) (wrappers σ) (weakrefs σ)
        (next_gid σ) (next_wid σ) (next_wrid σ) (trace σ).

Definition emit (e : event) : M unit :=
  fun σ => (Ret (), log e σ).

Definition print (what : string) (args : list val) : M unit :=
  emit (EvPrint what args).

Definition set_gen (g : gid) (st : status St) : M unit :=
  fun σ => (Ret (), put_gen g st σ).

Definition put_weakref (r : wrid) (wr : weakref) (σ : store) : store :=
  Store (gens σ) (wrappers σ) (<[r := wr]> (weakrefs σ))
        (next_gid σ) (next_wid σ) (next_wrid σ) (trace σ).

Definition new_gen (st : status St) (σ : store) : store :=
  Store (<[next_gid σ := st]> (gens σ)) (wrappers σ) (weakrefs σ)
        (S (next_gid σ)) (next_wid σ) (next_wrid σ) (trace σ).

Definition new_wrapper (o : wrapper) (σ : store) : store :=
  Store (gens σ) (<[next_wid σ := o]> (wrappers σ)) (weakrefs σ)
        (next_gid σ) (S (next_wid σ)) (next_wrid σ) (trace σ).

Definition new_weakref (o : weakref) (σ : store) : store :=
  Store (gens σ) (wrappers σ) (<[next_wrid σ := o]> (weakrefs σ))
        (next_gid σ) (next_wid σ) (S (next_wrid σ)) (trace σ).

Definition del_weakref (r : wrid) (σ : store) : store :=
  Store (gens σ) (wrappers σ) (delete r (weakrefs σ))
        (next_gid σ) (next_wid σ) (next_wrid σ) (trace σ).

Definition del_gen (g : gid) (σ : store) : store :=
  Store (delete g (gens σ)) (wrappers σ) (weakrefs σ)
        (next_gid σ) (next_wid σ) (next_wrid σ) (trace σ).

Definition set_weakref (r : wrid) (wr : weakref) : M unit :=
  fun σ => (Ret (), put_weakref r wr σ).

Definition get_wrapper (w : wid) : M wrapper :=
  fun σ => match wrappers σ !! w with
           | Some o => (Ret o, σ)
           | None => (Wrong, σ)
           end.

Definition get_weakref (r : wrid) : M weakref :=
  fun σ => match weakrefs σ !! r with
           | Some o => (Ret o, σ)
           | None => (Wrong, σ)
           end.

Definition get_gen (g : gid) : M (status St) :=
  fun σ => match gens σ !! g with
           | Some o => (Ret o, σ)
           | None => (Wrong, σ)
           end.

Definition alloc_gen (st : status St) : M gid :=
  fun σ => (Ret (next_gid σ), new_gen st σ).

Definition alloc_wrapper (o : wrapper) : M wid :=
  fun σ => (Ret (next_wid σ), new_wrapper o σ).

Definition alloc_weakref (o : weakref) : M wrid :=
  fun σ => (Ret (next_wrid σ), new_weakref o σ).

Definition free_weakref (r : wrid) : M unit :=
  fun σ => (Ret (), del_weakref r σ).

Definition free_gen (g : gid) : M unit :=
  fun σ => (Ret (), del_gen g σ).

(** ** The generator protocol of the language

    What [next], [generator.send], [generator.throw] and
    [generator.close] do to a generator object.  The body is entered only
    from here; one entry runs it to its next [yield] or to its end. *)

(** [return v] surfaces as [StopIteration] carrying [v]. *)
Definition stop_iteration (v : val) : exn :=
  Exn StopIteration (if is_None v then [] else [v]).

Definition run_body (g : gid) (s : St) (i : entry) : M val :=
  match body s i with
  | BYield v s' => set_gen g (Suspended s');; mret v
  | BReturn v => set_gen g Finished;; raise (stop_iteration v)
  | BRaise e => set_gen g Finished;; raise e
  end.

Definition gen_resume (g : gid) (v : val) : M val :=
  st ← get_gen g;
  match st with
  | Created s =>
      if is_None v then run_body g s (Sent VNone)
      else raise (Exn TypeError
             [VStr "can't send non-None value to a just-started generator"])
  | Suspended s => run_body g s (Sent v)
  | Finished => raise (Exn StopIteration [])
  end.

(** Calling a generator function with its arguments: a new generator
    object whose body has not started. *)
Definition gen_create (s0 : St) : M gid :=
  g ← alloc_gen (Created s0);
  emit (EvCreate g);;
  mret g.

Definition gen_next (g : gid) : M val :=
  emit (EvNext g);; gen_resume g VNone.

Definition gen_send (g : gid) (v : val) : M val :=
  emit (EvSend g v);; gen_resume g v.

Definition gen_throw (g : gid) (e : exn) : M val :=
  emit (EvThrow g e);;
  st ← get_gen g;
  match st with
  | Created _ => set_gen g Finished;; raise e
  | Suspended s => run_body g s (Thrown e)
  | Finished => raise e
  end.

Definition gen_close (g : gid) : M val :=
  emit (EvClose g);;
  st ← get_gen g;
  match st with
  | Created _ => set_gen g Finished;; mret VNone
  | Suspended s =>
      match body s (Thrown (Exn GeneratorExit [])) with
      | BYield _ s' =>
          set_gen g (Suspended s');;
          raise (Exn RuntimeError [VStr "generator ignored GeneratorExit"])
      | BReturn _ => set_gen g Finished;; mret VNone
      | BRaise e =>
          set_gen g Finished;;
          if is_GeneratorExit e || is_StopIteration e then mret VNone
          else raise e
      end
  | Finished => mret VNone
  end.

(** Attribute access on what a variable named [generator] holds: a
    generator object, or [None], which has none of the three methods. *)
Definition no_attribute (name : string) : exn :=
  Exn AttributeError [VStr "'NoneType' object has no attribute"; VStr name].

Definition obj_send (generator : option gid) (v : val) : M val :=
  match generator with
  | Some g => gen_send g v
  | None => raise (no_attribute "send")
  end.

Definition obj_throw (generator : option gid) (e : exn) : M val :=
  match generator with
  | Some g => gen_throw g e
  | None => raise (no_attribute "throw")
  end.

Definition value_of (generator : option gid) : val :=
  match generator with Some g => VGen g | None => VNone end.

(** ** Weak references of the language *)

(** [weakref.ref(target, cb)]: a new weak-reference object.  [None]
    cannot be weakly referenced. *)
Definition weakref_ref (target : option gid) (cb : option callback)
  : M wrid :=
  match target with
  | Some g =>
      r ← alloc_weakref (Weakref (Some g) cb);
      emit (EvWeakrefNew r g cb);;
      mret r
  | None =>
      raise (Exn TypeError
               [VStr "cannot create weak reference to 'NoneType' object"])
  end.

(** [r()]: the referent, or [None] once it is gone. *)
Definition weakref_call (r : wrid) : M (option gid) :=
  wr ← get_weakref r;
  mret (wr_target wr).

(** The weak-reference object itself is deallocated: it leaves the list
    of weak references of its referent, and its callback with it. *)
Definition weakref_del (r : wrid) : M unit :=
  free_weakref r;;
  emit (EvWeakrefDel r).

(** The weak references to [g] among the addresses below [n], newest
    first: each is cleared, and its callback, if it has one, is called
    with the weak-reference object. *)
Fixpoint clear_weakrefs (g : gid) (n : nat) : M unit :=
  match n with
  | O => mret ()
  | S r =>
      (fun σ =>
         match weakrefs σ !! r with
         | Some (Weakref (Some g') cb) =>
             if decide (g' = g) then
               (set_weakref r (Weakref None cb);;
                match cb with
                | Some f => emit (EvCallback f r)
                | None => mret ()
                end) σ
             else (Ret (), σ)
         | _ => (Ret (), σ)
         end);;
      clear_weakrefs g r
  end.

(** The generator object is deallocated: the weak references that are
    still alive are cleared and their callbacks run, then the object is
    gone.  (A parked frame is closed on the way; what its body does then
    stays inside the frame.) *)
Definition dealloc (g : gid) : M unit :=
  (fun σ => clear_weakrefs g (next_wrid σ) σ);;
  free_gen g;;
  emit (EvCollect g).

(** ** GeneratorWrapperBase and its two subclasses *)

(** What the [send] and [throw] properties and the [close] property
    return: [partial(self._send, generator)],
    [partial(self._throw, generator)] and the bound method
    [generator.close]. *)
Record send_partial : Type :=
  SendPartial { sp_self : wid; sp_generator : option gid }.
Record throw_partial : Type :=
  ThrowPartial { tp_self : wid; tp_generator : option gid }.
Record close_method : Type :=
  CloseMethod { cm_generator : gid }.

(** [GeneratorWrapperBase.__init__], after the attributes are set. *)
Definition GeneratorWrapperBase_init (self : wid) (debug : bool) : M unit :=
  if debug then print "new Wrapper created" [VWrapper self] else mret ().

(** [WeakGeneratorWrapper(generator, catch_stopiteration, debug)] *)
Definition new_WeakGeneratorWrapper (generator : option gid)
    (catch_stopiteration debug : bool) : M wid :=
  r ← weakref_ref generator None;
  self ← alloc_wrapper (WeakGeneratorWrapper r catch_stopiteration debug);
  emit (EvNewWrapper self Weak);;
  GeneratorWrapperBase_init self debug;;
  mret self.

(** [StrongGeneratorWrapper(generator, catch_stopiteration, debug)] *)
Definition new_StrongGeneratorWrapper (generator : option gid)
    (catch_stopiteration debug : bool) : M wid :=
  self ← alloc_wrapper
           (StrongGeneratorWrapper generator catch_stopiteration debug);
  emit (EvNewWrapper self Strong);;
  GeneratorWrapperBase_init self debug;;
  mret self.

(** The [generator] attribute: a property that calls the weak reference
    on a weak wrapper, the stored object on a strong one. *)
Definition generator (self : wid) : M (option gid) :=
  o ← get_wrapper self;
  match o with
  | WeakGeneratorWrapper r _ _ => weakref_call r
  | StrongGeneratorWrapper g _ _ => mret g
  end.

(** The [weak_generator] attribute: the stored weak reference on a weak
    wrapper, a property that makes one on a strong wrapper. *)
Definition weak_generator (self : wid) : M wrid :=
  o ← get_wrapper self;
  match o with
  | WeakGeneratorWrapper r _ _ => mret r
  | StrongGeneratorWrapper g _ _ => weakref_ref g None
  end.

Definition with_strong_ref (self : wid) : M wid :=
  o ← get_wrapper self;
  match o with
  | WeakGeneratorWrapper _ c d =>
      g ← generator self;
      new_StrongGeneratorWrapper g c d
  | StrongGeneratorWrapper _ _ _ => mret self
  end.

Definition with_weak_ref (self : wid) : M wid :=
  o ← get_wrapper self;
  match o with
  | WeakGeneratorWrapper _ _ _ => mret self
  | StrongGeneratorWrapper _ c d =>
      g ← generator self;
      new_WeakGeneratorWrapper g c d
  end.

(** [__call__ = with_strong_ref] in both subclasses. *)
Definition call (self : wid) : M wid := with_strong_ref self.

(** [_send(self, generator, value=None)] *)
Definition _send (self : wid) (generator : option gid) (value : val)
  : M val :=
  o ← get_wrapper self;
  (if debug o then print "send:" [value_of generator; value] else mret ());;
  if catch_stopiteration o then
    except_StopIteration (obj_send generator value) (mret VNone)
  else
    obj_send generator value;;
    mret VNone.

(** [_throw(self, generator, *args, **kwargs)], the arguments being the
    exception to raise in the generator. *)
Definition _throw (self : wid) (generator : option gid) (e : exn)
  : M val :=
  o ← get_wrapper self;
  (if debug o then print "throw:" (value_of generator :: exn_args e)
   else mret ());;
  if catch_stopiteration o then
    except_StopIteration (obj_throw generator e) (mret VNone)
  else
    obj_throw generator e;;
    mret VNone.

(** The three properties. *)
Definition send (self : wid) : M send_partial :=
  g ← generator self;
  mret (SendPartial self g).

Definition throw (self : wid) : M throw_partial :=
  g ← generator self;
  mret (ThrowPartial self g).

Definition close (self : wid) : M close_method :=
  g ← generator self;
  match g with
  | Some g => mret (CloseMethod g)
  | None => raise (no_attribute "close")
  end.

(** Calling what the properties returned. *)
Definition call_send (p : send_partial) (value : val) : M val :=
  _send (sp_self p) (sp_generator p) value.

Definition call_throw (p : throw_partial) (e : exn) : M val :=
  _throw (tp_self p) (tp_generator p) e.

Definition call_close (c : close_method) : M val :=
  gen_close (cm_generator c).

(** [wrapper.send(value)], [wrapper.throw(...)], [wrapper.close()]:
    the property is read, then its result is called. *)
Definition resume (self : wid) (value : val) : M val :=
  p ← send self;
  call_send p value.

Definition throw_into (self : wid) (e : exn) : M val :=
  p ← throw self;
  call_throw p e.

Definition do_close (self : wid) : M val :=
  c ← close self;
  call_close c.

(** ** The decorator *)

(** A generator function: its arguments determine the frame a new
    generator starts in. *)
Definition genfunc : Type := list val -> St.

(** The launcher.  The result of [weakref.ref(generator,
    finalize_callback)] is bound to no name, so the weak-reference object
    it made is deallocated as soon as the statement is over. *)
Definition send_self_wrapper (func : genfunc)
    (catch_stopiteration : bool) (finalize_callback : option callback)
    (debug : bool) (args : list val) : M val :=
  generator ← gen_create (func args);
  r ← weakref_ref (Some generator) finalize_callback;
  weakref_del r;;
  ret_value ← gen_next generator;
  gen_wrapper ← new_WeakGeneratorWrapper (Some generator)
                  catch_stopiteration debug;
  gen_send generator (VWrapper gen_wrapper);;
  mret ret_value.

(** The first parameter of [send_self] is the decorated function when
    the decorator is used bare, the [catch_stopiteration] flag
    otherwise. *)
Inductive first_parameter : Type :=
| Callable (func : genfunc)
| Flag (catch_stopiteration : bool).

Inductive decorated : Type :=
| Launcher (send_self_wrapper : list val -> M val)
| Decorator (_send_self : genfunc -> list val -> M val).

Definition send_self (catch_stopiteration : first_parameter)
    (finalize_callback : option callback) (debug : bool) : decorated :=
  let first_param := catch_stopiteration in
  let catch_stopiteration := true in
  let _send_self catch_stopiteration func :=
    send_self_wrapper func catch_stopiteration finalize_callback debug in
  match first_param with
  | Callable func => Launcher (_send_self catch_stopiteration func)
  | Flag b =>
      let catch_stopiteration := b in
      Decorator (_send_self catch_stopiteration)
  end.

(** ** Who keeps a generator alive

    The objects of this module that hold a generator strongly: a strong
    wrapper through its [generator] attribute, a partial through its
    bound argument and through the wrapper its method is bound to, a
    bound [close] method, and a variable of a running frame.  A weak
    wrapper and a weak reference hold nothing. *)
Inductive holder : Type :=
| HWrapper (w : wid)
| HSend (p : send_partial)
| HThrow (p : throw_partial)
| HClose (c : close_method)
| HVariable (g : gid)
| HWeakref (r : wrid).

Definition wrapper_referents (σ : store) (w : wid) : list gid :=
  match wrappers σ !! w with
  | Some (StrongGeneratorWrapper (Some g) _ _) => [g]
  | _ => []
  end.

Definition referents (σ : store) (h : holder) : list gid :=
  match h with
  | HWrapper w => wrapper_referents σ w
  | HSend p => option_list (sp_generator p) ++ wrapper_referents σ (sp_self p)
  | HThrow p => option_list (tp_generator p) ++ wrapper_referents σ (tp_self p)
  | HClose c => [cm_generator c]
  | HVariable g => [g]
  | HWeakref _ => []
  end.

Definition held (σ : store) (live : list holder) (g : gid) : bool :=
  existsb (fun h => existsb (Nat.eqb g) (referents σ h)) live.

(** The collector: given the holders that are alive, a generator none of
    them holds is deallocated; one that is held stays. *)
Definition collect (live : list holder) (g : gid) : M unit :=
  fun σ => if held σ live g then (Ret (), σ) else dealloc g σ.

End Store.

Arguments store St : clear implicits.
Arguments M St A : clear implicits.
Arguments genfunc St : clear implicits.
Arguments decorated St : clear implicits.
Arguments first_parameter St : clear implicits.

(** ** Vocabulary of the properties *)

(** The three ways to ask a wrapper for another ownership mode. *)
Inductive conversion : Type := WithStrongRef | WithWeakRef | Call.

Definition convert {St} (c : conversion) (self : wid) : M St wid :=
  match c with
  | WithStrongRef => with_strong_ref self
  | WithWeakRef => with_weak_ref self
  | Call => call self
  end.

Definition target_mode (c : conversion) : mode :=
  match c with
  | WithStrongRef | Call => Strong
  | WithWeakRef => Weak
  end.

(** How often the callable [cb] has been called by the collector. *)
Definition is_call_of (cb : callback) (e : event) : bool :=
  match e with
  | EvCallback f _ => Nat.eqb f cb
  | _ => false
  end.

Definition fired (cb : callback) (t : list event) : nat :=
  length (List.filter (is_call_of cb) t).

(** The store after the first two statements of the launcher: the
    generator exists, and the weak reference that carried the finalizer
    has come and gone. *)
Definition registered {St} (s0 : St) (cb : option callback)
    (σ : store St) : store St :=
  log (EvWeakrefDel (next_wrid σ))
    (del_weakref (next_wrid σ)
       (log (EvWeakrefNew (next_wrid σ) (next_gid σ) cb)
          (new_weakref (Weakref (Some (next_gid σ)) cb)
             (log (EvCreate (next_gid σ))
                (new_gen (Created s0) σ))))).

(** The store after a weak wrapper around [g] was constructed. *)
Definition wrapped {St} (g : gid) (c d : bool) (σ : store St) : store St :=
  let σ' :=
    log (EvNewWrapper (next_wid σ) Weak)
      (new_wrapper (WeakGeneratorWrapper (next_wrid σ) c d)
         (log (EvWeakrefNew (next_wrid σ) g None)
            (new_weakref (Weakref (Some g) None) σ))) in
  if d then log (EvPrint "new Wrapper created" [VWrapper (next_wid σ)]) σ'
  else σ'.

(** No living weak reference to [g] carries a callback. *)
Definition finalizer_free {St} (g : gid) (σ : store St) : Prop :=
  forall r wr, weakrefs σ !! r = Some wr ->
               wr_target wr = Some g -> wr_callback wr = None.

(** The same store with another table of weak references. *)
Definition with_weakrefs {St} (m : gmap wrid weakref) (σ : store St)
  : store St :=
  Store (gens σ) (wrappers σ) m
        (next_gid σ) (next_wid σ) (next_wrid σ) (trace σ).

(** What one entry into the body leaves behind: the outcome seen by the
    caller of [send] or [throw], and the new status of the generator. *)
Definition outcome_of {St} (b : body_result St) : result val :=
  match b with
  | BYield v _ => Ret v
  | BReturn v => Raise (stop_iteration v)
  | BRaise e => Raise e
  end.

Definition status_after {St} (b : body_result St) : status St :=
  match b with
  | BYield _ s => Suspended s
  | BReturn _ | BRaise _ => Finished
  end.

(** The store after the debug output of [_send] and of [_throw]. *)
Definition announce_send {St} (d : bool) (generator : option gid)
    (v : val) (σ : store St) : store St :=
  if d then log (EvPrint "send:" [value_of generator; v]) σ else σ.

Definition announce_throw {St} (d : bool) (generator : option gid)
    (e : exn) (σ : store St) : store St :=
  if d then log (EvPrint "throw:" (value_of generator :: exn_args e)) σ
  else σ.

(** ** Two generator functions

    [numbers] stands for
<<
    def numbers():
        this = yield "first"
        try:
            yield "second"
        except TypeError:
            yield "sorry"
            return
        yield "third"
>>
    and [single] for the function of the repository's test
    [test_normal_termination]
<<
    def func():
        yield
        ts.run = True
>>
    A frame state says where the frame is parked. *)
Module Demo.

Inductive frame : Type :=
| N0        (* numbers, not started *)
| N1        (* numbers, at yield "first" *)
| N2        (* numbers, at yield "second" *)
| N3        (* numbers, at yield "third" *)
| N4        (* numbers, at yield "sorry" *)
| S0        (* single, not started *)
| S1.       (* single, at its yield *)

Definition body (s : frame) (i : entry) : body_result frame :=
  match s, i with
  | N0, Sent _ => BYield (VStr "first") N1
  | N1, Sent _ => BYield (VStr "second") N2
  | N2, Sent _ => BYield (VStr "third") N3
  | N2, Thrown e =>
      match kind e with
      | TypeError => BYield (VStr "sorry") N4
      | _ => BRaise e
      end
  | N3, Sent _ => BReturn VNone
  | N4, Sent _ => BReturn VNone
  | S0, Sent _ => BYield VNone S1
  | S1, Sent _ => BReturn VNone
  | _, Thrown e => BRaise e
  end.

Definition numbers : genfunc frame := fun _ => N0.
Definition single : genfunc frame := fun _ => S0.

(** A finalizer, and an injected error. *)
Definition finalized : callback := 7.
Definition type_error : exn := Exn TypeError [VStr "3 is greater than 2"].

(** The store after [numbers] was launched from the empty store, with
    the given [catch_stopiteration] and [finalized] as finalizer: the
    generator is object 0, parked at [yield "second"], and the wrapper it
    was sent is object 0 of the wrappers. *)
Definition launched (catch : bool) : store frame :=
  snd (send_self_wrapper body numbers catch (Some finalized) false []
         empty_store).

(** [launched] after the generator was resumed up to its end. *)
Definition exhausted (catch : bool) : store frame :=
  snd (resume body 0 VNone (snd (resume body 0 VNone (launched catch)))).

(** [single] after the first two statements of the launcher, [next]
    and the construction of the wrapper: the generator is parked at its
    only [yield] and has not been sent the wrapper yet. *)
Definition single_started : store frame :=
  snd (new_WeakGeneratorWrapper (Some 0) true false
         (snd (gen_next body 0 (snd (gen_create S0 empty_store))))).

(** [launched] after the wrapper was asked for a strong variant, which
    is object 1 of the wrappers. *)
Definition strengthened : store frame :=
  snd (with_strong_ref 0 (launched true)).

(** [launched] with the weak reference of the wrapper cleared, the
    generator still being there. *)
Definition cleared : store frame :=
  with_weakrefs (<[1 := Weakref None None]> (weakrefs (launched true)))
    (launched true).

(** A strong wrapper around a [numbers] generator that has not been
    started: generator 0, wrapper 0. *)
Definition unstarted : store frame :=
  snd (new_StrongGeneratorWrapper (Some 0) true false
         (snd (gen_create N0 empty_store))).

(** An error [numbers] does not handle. *)
Definition key_error : exn := Exn (UserError "KeyError") [VStr "k"].

(** [launched] after the collector found the generator unheld. *)
Definition collected (catch : bool) : store frame :=
  snd (collect [] 0 (launched catch)).

End Demo.

(** * Properties *)

Ltac unfold_monad :=
  cbv [mbind M_bind bind mret M_ret ret raise wrong except_StopIteration
       emit print set_gen set_weakref get_wrapper get_weakref get_gen
       alloc_gen alloc_wrapper alloc_weakref free_weakref free_gen
       log put_gen put_weakref new_gen new_wrapper new_weakref del_weakref
       del_gen].

Ltac store_simpl :=
  cbn [fst snd gens wrappers weakrefs next_gid next_wid next_wrid trace
       catch_stopiteration debug ownership_mode sp_self sp_generator
       tp_self tp_generator cm_generator wr_target wr_callback
       is_StopIteration is_GeneratorExit kind exn_args stop_iteration].

Section Properties.

Context {St : Type}.
Variable body : St -> entry -> body_result St.
Implicit Types (σ : store St) (g : gid) (self w : wid) (r : wrid)
               (v : val) (e : exn) (o : wrapper) (s : St).

(** ** Equations of the monad and of the generator protocol *)

Lemma bind_run {A B} (m : M St A) (k : A -> M St B) σ :
  (m ≫= k) σ = match m σ with
               | (Ret a, σ') => k a σ'
               | (Raise e, σ') => (Raise e, σ')
               | (Wrong, σ') => (Wrong, σ')
               end.
Proof. reflexivity. Qed.

Lemma bind_ret {A B} (m : M St A) (k : A -> M St B) σ a σ' :
  m σ = (Ret a, σ') -> (m ≫= k) σ = k a σ'.
Proof. intros H. rewrite bind_run, H. reflexivity. Qed.

Lemma bind_raise {A B} (m : M St A) (k : A -> M St B) σ e σ' :
  m σ = (Raise e, σ') -> (m ≫= k) σ = (Raise e, σ').
Proof. intros H. rewrite bind_run, H. reflexivity. Qed.

Lemma run_body_eq g s i σ :
  run_body body g s i σ =
    (outcome_of (body s i), put_gen g (status_after (body s i)) σ).
Proof. unfold run_body. destruct (body s i); reflexivity. Qed.

Lemma gen_resume_suspended g s v σ :
  gens σ !! g = Some (Suspended s) ->
  gen_resume body g v σ =
    (outcome_of (body s (Sent v)),
     put_gen g (status_after (body s (Sent v))) σ).
Proof.
  intros H. unfold gen_resume. rewrite bind_run.
  unfold get_gen. rewrite H. apply run_body_eq.
Qed.

Lemma gen_resume_created g s σ :
  gens σ !! g = Some (Created s) ->
  gen_resume body g VNone σ =
    (outcome_of (body s (Sent VNone)),
     put_gen g (status_after (body s (Sent VNone))) σ).
Proof.
  intros H. unfold gen_resume. rewrite bind_run.
  unfold get_gen. rewrite H. apply run_body_eq.
Qed.

Lemma gen_resume_finished g v σ :
  gens σ !! g = Some Finished ->
  gen_resume body g v σ = (Raise (Exn StopIteration []), σ).
Proof.
  intros H. unfold gen_resume. rewrite bind_run.
  unfold get_gen. rewrite H. reflexivity.
Qed.

Lemma gen_send_eq g v σ :
  gen_send body g v σ = gen_resume body g v (log (EvSend g v) σ).
Proof. reflexivity. Qed.

Lemma gen_next_eq g σ :
  gen_next body g σ = gen_resume body g VNone (log (EvNext g) σ).
Proof. reflexivity. Qed.

(** The two branches of [_send], once the wrapper is known. *)
Lemma _send_eq self o generator v σ :
  wrappers σ !! self = Some o ->
  _send body self generator v σ =
    let σ1 := announce_send (debug o) generator v σ in
    if catch_stopiteration o then
      except_StopIteration (obj_send body generator v) (mret VNone) σ1
    else
      (obj_send body generator v ≫= fun _ => mret VNone) σ1.
Proof.
  intros H. unfold _send. rewrite bind_run.
  unfold get_wrapper. rewrite H. rewrite bind_run.
  unfold announce_send. destruct (debug o), (catch_stopiteration o); reflexivity.
Qed.

Lemma _throw_eq self o generator e σ :
  wrappers σ !! self = Some o ->
  _throw body self generator e σ =
    let σ1 := announce_throw (debug o) generator e σ in
    if catch_stopiteration o then
      except_StopIteration (obj_throw body generator e) (mret VNone) σ1
    else
      (obj_throw body generator e ≫= fun _ => mret VNone) σ1.
Proof.
  intros H. unfold _throw. rewrite bind_run.
  unfold get_wrapper. rewrite H. rewrite bind_run.
  unfold announce_throw. destruct (debug o), (catch_stopiteration o); reflexivity.
Qed.

Lemma gens_announce_send d generator v σ :
  gens (announce_send d generator v σ) = gens σ.
Proof. destruct d; reflexivity. Qed.

Lemma gens_announce_throw d generator e σ :
  gens (announce_throw d generator e σ) = gens σ.
Proof. destruct d; reflexivity. Qed.

(** Reading the [send] property when the wrapper resolves. *)
Lemma resume_eq self target v σ :
  generator self σ = (Ret target, σ) ->
  resume body self v σ = _send body self target v σ.
Proof.
  intros H. unfold resume, send. rewrite !bind_run, H. reflexivity.
Qed.

Lemma throw_into_eq self target e σ :
  generator self σ = (Ret target, σ) ->
  throw_into body self e σ = _throw body self target e σ.
Proof.
  intros H. unfold throw_into, throw. rewrite !bind_run, H. reflexivity.
Qed.

(** ** C3: resuming a terminated generator *)

(** C3. A wrapper resolves to a generator that has terminated.  Resuming
    it through the wrapper returns [None] when the wrapper catches
    [StopIteration], and raises [StopIteration] to the caller when it
    does not; the generator stays terminated either way. *)
Theorem resume_terminated σ self o g v :
  wrappers σ !! self = Some o ->
  generator self σ = (Ret (Some g), σ) ->
  gens σ !! g = Some Finished ->
  fst (resume body self v σ) =
    (if catch_stopiteration o then Ret VNone
     else Raise (Exn StopIteration []))
  /\ gens (snd (resume body self v σ)) !! g = Some Finished.
Proof.
  intros Hw Hg Hfin.
  rewrite (resume_eq _ _ _ _ Hg), (_send_eq _ _ _ _ _ Hw). cbn zeta.
  set (σ1 := announce_send _ _ _ _).
  assert (Hfin1 : gens (log (EvSend g v) σ1) !! g = Some Finished).
  { subst σ1. cbn. rewrite gens_announce_send. exact Hfin. }
  destruct (catch_stopiteration o).
  - unfold except_StopIteration, obj_send.
    rewrite gen_send_eq, (gen_resume_finished _ _ _ Hfin1). cbn.
    split; [reflexivity | exact Hfin1].
  - unfold obj_send. rewrite bind_run.
    rewrite gen_send_eq, (gen_resume_finished _ _ _ Hfin1). cbn.
    split; [reflexivity | exact Hfin1].
Qed.

(** ** C1 and C6: the launcher *)

(** Both forms of the decorator end in the launcher: used bare, with
    [catch_stopiteration] on; used with parameters, with the flag that
    was passed. *)
Lemma send_self_bare (func : genfunc St) cb d :
  send_self body (Callable func) cb d =
    Launcher (send_self_wrapper body func true cb d).
Proof. reflexivity. Qed.

Lemma send_self_with_parameters (b : bool) cb d :
  send_self body (Flag b) cb d =
    Decorator (fun func => send_self_wrapper body func b cb d).
Proof. reflexivity. Qed.

(** The statements of the launcher, one by one. *)
Lemma gen_create_eq s0 σ :
  gen_create s0 σ =
    (Ret (next_gid σ), log (EvCreate (next_gid σ)) (new_gen (Created s0) σ)).
Proof. reflexivity. Qed.

Lemma weakref_ref_eq g cb σ :
  weakref_ref (Some g) cb σ =
    (Ret (next_wrid σ),
     log (EvWeakrefNew (next_wrid σ) g cb)
       (new_weakref (Weakref (Some g) cb) σ)).
Proof. reflexivity. Qed.

Lemma weakref_del_eq r σ :
  weakref_del r σ = (Ret (), log (EvWeakrefDel r) (del_weakref r σ)).
Proof. reflexivity. Qed.

Lemma new_WeakGeneratorWrapper_run g c d σ :
  new_WeakGeneratorWrapper (Some g) c d σ =
    (Ret (next_wid σ), wrapped g c d σ).
Proof.
  unfold new_WeakGeneratorWrapper, wrapped, GeneratorWrapperBase_init.
  destruct d; reflexivity.
Qed.

Lemma gens_wrapped g' c d σ : gens (wrapped g' c d σ) = gens σ.
Proof. unfold wrapped. destruct d; reflexivity. Qed.

Lemma next_wid_registered s0 cb σ :
  next_wid (registered s0 cb σ) = next_wid σ.
Proof. reflexivity. Qed.

(** The launcher as a whole: its outcome and the store it leaves, by
    what the body does at its first two entries. *)
Lemma launcher_run (func : genfunc St) c cb d args σ :
  send_self_wrapper body func c cb d args σ =
    let g := next_gid σ in
    let first := body (func args) (Sent VNone) in
    let σ1 := put_gen g (status_after first)
                (log (EvNext g) (registered (func args) cb σ)) in
    match first with
    | BYield v1 s1 =>
        let second := body s1 (Sent (VWrapper (next_wid σ))) in
        (match second with
         | BYield _ _ => Ret v1
         | BReturn r => Raise (stop_iteration r)
         | BRaise e => Raise e
         end,
         put_gen g (status_after second)
           (log (EvSend g (VWrapper (next_wid σ))) (wrapped g c d σ1)))
    | BReturn r => (Raise (stop_iteration r), σ1)
    | BRaise e => (Raise e, σ1)
    end.
Proof.
  unfold send_self_wrapper.
  rewrite (bind_ret _ _ _ _ _ (gen_create_eq _ _)).
  rewrite (bind_ret _ _ _ _ _ (weakref_ref_eq _ _ _)).
  rewrite (bind_ret _ _ _ _ _ (weakref_del_eq _ _)).
  change (log (EvWeakrefDel _) _) with (registered (func args) cb σ).
  change (next_wrid (log (EvCreate (next_gid σ)) (new_gen (Created (func args)) σ)))
    with (next_wrid σ).
  change (log (EvWeakrefDel _) _) with (registered (func args) cb σ).
  rewrite bind_run, gen_next_eq.
  rewrite (gen_resume_created _ (func args))
    by (cbn; apply lookup_insert_eq).
  cbn zeta.
  destruct (body (func args) (Sent VNone)) as [v1 s1|r|e];
    cbn [outcome_of status_after]; try reflexivity.
  rewrite (bind_ret _ _ _ _ _ (new_WeakGeneratorWrapper_run _ _ _ _)).
  change (next_wid (put_gen _ _ _)) with (next_wid σ).
  rewrite bind_run, gen_send_eq.
  rewrite (gen_resume_suspended _ s1)
    by (cbn [gens log]; rewrite gens_wrapped; cbn; apply lookup_insert_eq).
  destruct (body s1 (Sent (VWrapper (next_wid σ)))); reflexivity.
Qed.

(** C1. The body yields [v1] when it is first entered and yields again
    when it is sent the wrapper.  Then the launcher returns [v1]; it has
    created one generator, advanced it with [next], built one weak
    wrapper with the configured flags whose weak reference points to the
    generator, and sent that wrapper with [send], in this order; the
    generator is left parked at its second yield. *)
Theorem launcher_sends_self (func : genfunc St) (c : bool)
    (cb : option callback) (d : bool) args σ v1 s1 v2 s2 :
  body (func args) (Sent VNone) = BYield v1 s1 ->
  body s1 (Sent (VWrapper (next_wid σ))) = BYield v2 s2 ->
  exists σ',
    send_self_wrapper body func c cb d args σ = (Ret v1, σ') /\
    trace σ' =
      ([EvSend (next_gid σ) (VWrapper (next_wid σ))] ++
       (if d then [EvPrint "new Wrapper created" [VWrapper (next_wid σ)]]
        else []) ++
       [EvNewWrapper (next_wid σ) Weak;
        EvWeakrefNew (S (next_wrid σ)) (next_gid σ) None;
        EvNext (next_gid σ);
        EvWeakrefDel (next_wrid σ);
        EvWeakrefNew (next_wrid σ) (next_gid σ) cb;
        EvCreate (next_gid σ)] ++ trace σ)%list /\
    wrappers σ' !! next_wid σ =
      Some (WeakGeneratorWrapper (S (next_wrid σ)) c d) /\
    weakrefs σ' !! S (next_wrid σ) =
      Some (Weakref (Some (next_gid σ)) None) /\
    gens σ' !! next_gid σ = Some (Suspended s2).
Proof.
  intros H1 H2. rewrite launcher_run. cbn zeta. rewrite H1, H2.
  eexists. split; [reflexivity |].
  unfold wrapped, registered.
  destruct d; cbn; rewrite !lookup_insert_eq; auto.
Qed.

(** C6, as the code has it.  The launcher calls [next] and [send] on the
    generator itself, not through the wrapper: whatever the flag
    [catch_stopiteration], a generator that returns during one of the
    two steps makes the launcher raise [StopIteration], and an exception
    that escapes the body is raised unchanged. *)
Theorem launcher_outcome (func : genfunc St) (c : bool)
    (cb : option callback) (d : bool) args σ :
  fst (send_self_wrapper body func c cb d args σ) =
    match body (func args) (Sent VNone) with
    | BYield v1 s1 =>
        match body s1 (Sent (VWrapper (next_wid σ))) with
        | BYield _ _ => Ret v1
        | BReturn r => Raise (stop_iteration r)
        | BRaise e => Raise e
        end
    | BReturn r => Raise (stop_iteration r)
    | BRaise e => Raise e
    end.
Proof.
  rewrite launcher_run. cbn zeta.
  destruct (body (func args) (Sent VNone)) as [v1 s1|r|e]; reflexivity.
Qed.

(** ** C2: what [resume] returns *)

(** X1. With [catch_stopiteration] on, resuming a parked generator
    returns what the body yields next, and [None] when the body returns;
    an exception that escapes the body reaches the caller unless it is
    [StopIteration]. *)
Lemma resume_catching σ self o g s v :
  wrappers σ !! self = Some o ->
  generator self σ = (Ret (Some g), σ) ->
  gens σ !! g = Some (Suspended s) ->
  catch_stopiteration o = true ->
  fst (resume body self v σ) =
    match body s (Sent v) with
    | BYield v' _ => Ret v'
    | BReturn _ => Ret VNone
    | BRaise e => if is_StopIteration e then Ret VNone else Raise e
    end.
Proof.
  intros Hw Hg Hs Hc.
  rewrite (resume_eq _ _ _ _ Hg), (_send_eq _ _ _ _ _ Hw), Hc. cbn zeta.
  unfold except_StopIteration, obj_send.
  rewrite gen_send_eq, (gen_resume_suspended _ s).
  - destruct (body s (Sent v)) as [v' s'|r|e]; cbn; try reflexivity.
    destruct (is_StopIteration e); reflexivity.
  - cbn. rewrite gens_announce_send. exact Hs.
Qed.

(** C2, as the code has it.  With [catch_stopiteration] off, [_send]
    calls [generator.send] without returning its result: resuming a
    parked generator returns [None] where the body yields, whatever it
    yields. *)
Theorem resume_not_catching σ self o g s v :
  wrappers σ !! self = Some o ->
  generator self σ = (Ret (Some g), σ) ->
  gens σ !! g = Some (Suspended s) ->
  catch_stopiteration o = false ->
  fst (resume body self v σ) =
    match body s (Sent v) with
    | BYield _ _ => Ret VNone
    | BReturn r => Raise (stop_iteration r)
    | BRaise e => Raise e
    end.
Proof.
  intros Hw Hg Hs Hc.
  rewrite (resume_eq _ _ _ _ Hg), (_send_eq _ _ _ _ _ Hw), Hc. cbn zeta.
  unfold obj_send. rewrite bind_run.
  rewrite gen_send_eq, (gen_resume_suspended _ s).
  - destruct (body s (Sent v)) as [v' s'|r|e]; reflexivity.
  - cbn. rewrite gens_announce_send. exact Hs.
Qed.

(** ** C7: injecting an exception *)

Lemma gen_throw_eq g e σ :
  gen_throw body g e σ =
    match gens σ !! g with
    | Some (Suspended s) =>
        (outcome_of (body s (Thrown e)),
         put_gen g (status_after (body s (Thrown e)))
           (log (EvThrow g e) σ))
    | Some (Created _) =>
        (Raise e, put_gen g Finished (log (EvThrow g e) σ))
    | Some Finished => (Raise e, log (EvThrow g e) σ)
    | None => (Wrong, log (EvThrow g e) σ)
    end.
Proof.
  unfold gen_throw. unfold_monad. store_simpl.
  destruct (gens σ !! g) as [[s|s|]|]; try reflexivity.
  apply run_body_eq.
Qed.

(** C7, as the code has it.  A wrapper that catches [StopIteration]
    resolves to a generator, and an exception is thrown into it.  At a
    parked generator the body decides: the value it yields after
    handling the exception is what [throw_into] returns, [None] is
    returned when the body returns, and an exception that escapes is
    raised to the caller.  A generator that has terminated, or has not
    started, is not entered: the injected exception itself comes back
    to the caller, and only an injected [StopIteration] is caught. *)
Theorem throw_into_catching σ self o g e :
  wrappers σ !! self = Some o ->
  generator self σ = (Ret (Some g), σ) ->
  catch_stopiteration o = true ->
  fst (throw_into body self e σ) =
    match gens σ !! g with
    | Some (Suspended s) =>
        match body s (Thrown e) with
        | BYield v' _ => Ret v'
        | BReturn _ => Ret VNone
        | BRaise e' => if is_StopIteration e' then Ret VNone else Raise e'
        end
    | Some (Created _) | Some Finished =>
        if is_StopIteration e then Ret VNone else Raise e
    | None => Wrong
    end.
Proof.
  intros Hw Hg Hc.
  rewrite (throw_into_eq _ _ _ _ Hg), (_throw_eq _ _ _ _ _ Hw), Hc.
  cbn zeta. unfold except_StopIteration, obj_throw.
  rewrite gen_throw_eq, gens_announce_throw.
  destruct (gens σ !! g) as [[s|s|]|]; cbn.
  - destruct (is_StopIteration e); reflexivity.
  - destruct (body s (Thrown e)) as [v' s'|r|e']; cbn; try reflexivity.
    destruct (is_StopIteration e'); reflexivity.
  - destruct (is_StopIteration e); reflexivity.
  - reflexivity.
Qed.

(** ** C5: a weak wrapper whose generator is gone *)

(** C5, as the code has it.  The weak reference of a weak wrapper has
    been cleared.  The [generator] attribute is [None]; [with_weak_ref]
    is the wrapper itself; [with_strong_ref] is a new strong wrapper
    around [None], whose [generator] attribute is [None] in every store
    that holds it.  The [send] and [throw] properties can be read, and
    calling what they return raises [AttributeError]; reading the
    [close] property raises [AttributeError]. *)
Theorem dangling_weak_wrapper σ self r c d cb :
  wrappers σ !! self = Some (WeakGeneratorWrapper r c d) ->
  weakrefs σ !! r = Some (Weakref None cb) ->
  generator self σ = (Ret None, σ) /\
  with_weak_ref self σ = (Ret self, σ) /\
  (exists σ',
     with_strong_ref self σ = (Ret (next_wid σ), σ') /\
     wrappers σ' !! next_wid σ = Some (StrongGeneratorWrapper None c d)) /\
  (forall σ' w,
     wrappers σ' !! w = Some (StrongGeneratorWrapper None c d) ->
     generator w σ' = (Ret None, σ')) /\
  send self σ = (Ret (SendPartial self None), σ) /\
  throw self σ = (Ret (ThrowPartial self None), σ) /\
  (forall v, fst (resume body self v σ) = Raise (no_attribute "send")) /\
  (forall e, fst (throw_into body self e σ) = Raise (no_attribute "throw")) /\
  fst (close self σ) = Raise (no_attribute "close") /\
  fst (do_close body self σ) = Raise (no_attribute "close").
Proof.
  intros Hw Hr.
  assert (Hg : generator self σ = (Ret None, σ)).
  { unfold generator, weakref_call. unfold_monad. rewrite Hw, Hr.
    reflexivity. }
  repeat split.
  - exact Hg.
  - unfold with_weak_ref. unfold_monad. rewrite Hw. reflexivity.
  - unfold with_strong_ref. rewrite bind_run. unfold get_wrapper at 1.
    rewrite Hw. rewrite bind_run, Hg.
    unfold new_StrongGeneratorWrapper, GeneratorWrapperBase_init.
    destruct d; eexists; (split; [unfold_monad; reflexivity |]);
      store_simpl; apply lookup_insert_eq.
  - intros σ' w Hw'. unfold generator. unfold_monad. rewrite Hw'.
    reflexivity.
  - unfold send. rewrite bind_run, Hg. reflexivity.
  - unfold throw. rewrite bind_run, Hg. reflexivity.
  - intros v. rewrite (resume_eq _ _ _ _ Hg), (_send_eq _ _ _ _ _ Hw).
    destruct c; reflexivity.
  - intros e. rewrite (throw_into_eq _ _ _ _ Hg), (_throw_eq _ _ _ _ _ Hw).
    destruct c; reflexivity.
  - unfold close. rewrite bind_run, Hg. reflexivity.
  - unfold do_close, close. rewrite !bind_run, Hg. reflexivity.
Qed.

(** ** C8 and C9: changing the ownership mode *)

Lemma generator_weak self r c d σ :
  wrappers σ !! self = Some (WeakGeneratorWrapper r c d) ->
  generator self σ =
    match weakrefs σ !! r with
    | Some wr => (Ret (wr_target wr), σ)
    | None => (Wrong, σ)
    end.
Proof.
  intros Hw. unfold generator, weakref_call. unfold_monad. rewrite Hw.
  destruct (weakrefs σ !! r); reflexivity.
Qed.

Lemma generator_strong self t c d σ :
  wrappers σ !! self = Some (StrongGeneratorWrapper t c d) ->
  generator self σ = (Ret t, σ).
Proof.
  intros Hw. unfold generator. unfold_monad. rewrite Hw. reflexivity.
Qed.

Lemma with_weak_ref_weak self r c d σ :
  wrappers σ !! self = Some (WeakGeneratorWrapper r c d) ->
  with_weak_ref self σ = (Ret self, σ).
Proof.
  intros Hw. unfold with_weak_ref. rewrite bind_run.
  unfold get_wrapper. rewrite Hw. reflexivity.
Qed.

Lemma with_strong_ref_strong self t c d σ :
  wrappers σ !! self = Some (StrongGeneratorWrapper t c d) ->
  with_strong_ref self σ = (Ret self, σ).
Proof.
  intros Hw. unfold with_strong_ref. rewrite bind_run.
  unfold get_wrapper. rewrite Hw. reflexivity.
Qed.

Lemma with_strong_ref_weak self r c d σ :
  wrappers σ !! self = Some (WeakGeneratorWrapper r c d) ->
  with_strong_ref self σ =
    match weakrefs σ !! r with
    | Some wr => new_StrongGeneratorWrapper (wr_target wr) c d σ
    | None => (Wrong, σ)
    end.
Proof.
  intros Hw. unfold with_strong_ref. rewrite bind_run.
  unfold get_wrapper at 1. rewrite Hw.
  rewrite bind_run, (generator_weak _ _ _ _ _ Hw).
  destruct (weakrefs σ !! r); reflexivity.
Qed.

Lemma with_weak_ref_strong self t c d σ :
  wrappers σ !! self = Some (StrongGeneratorWrapper t c d) ->
  with_weak_ref self σ = new_WeakGeneratorWrapper t c d σ.
Proof.
  intros Hw. unfold with_weak_ref. rewrite bind_run.
  unfold get_wrapper at 1. rewrite Hw.
  rewrite bind_run, (generator_strong _ _ _ _ _ Hw). reflexivity.
Qed.

Lemma new_StrongGeneratorWrapper_eq t c d σ :
  fst (new_StrongGeneratorWrapper t c d σ) = Ret (next_wid σ) /\
  wrappers (snd (new_StrongGeneratorWrapper t c d σ)) =
    <[next_wid σ := StrongGeneratorWrapper t c d]> (wrappers σ).
Proof.
  unfold new_StrongGeneratorWrapper, GeneratorWrapperBase_init.
  destruct d; split; reflexivity.
Qed.

Lemma new_WeakGeneratorWrapper_eq t c d σ :
  fst (new_WeakGeneratorWrapper t c d σ) =
    match t with
    | Some _ => Ret (next_wid σ)
    | None =>
        Raise (Exn TypeError
                 [VStr "cannot create weak reference to 'NoneType' object"])
    end /\
  wrappers (snd (new_WeakGeneratorWrapper t c d σ)) =
    match t with
    | Some _ =>
        <[next_wid σ := WeakGeneratorWrapper (next_wrid σ) c d]> (wrappers σ)
    | None => wrappers σ
    end.
Proof.
  unfold new_WeakGeneratorWrapper, weakref_ref, GeneratorWrapperBase_init.
  destruct t, d; split; reflexivity.
Qed.

Lemma held_by_strong_wrapper σ live self g c d :
  wrappers σ !! self = Some (StrongGeneratorWrapper (Some g) c d) ->
  In (HWrapper self) live ->
  held σ live g = true.
Proof.
  intros Hw Hin. unfold held. apply existsb_exists.
  exists (HWrapper self). split; [exact Hin |].
  cbn. unfold wrapper_referents. rewrite Hw. cbn.
  rewrite Nat.eqb_refl. reflexivity.
Qed.

(** C8. A strong wrapper around a generator is turned into a weak one
    and that into a strong one again.  Both conversions succeed, the
    collector leaves the generator alone in between because the first
    wrapper holds it, and the last wrapper has the generator and the
    flags of the first: its [generator] attribute is the same object,
    and resuming through either wrapper is the same computation, in
    result and in store. *)
Theorem strong_weak_strong σ self g c d live :
  wrappers σ !! self = Some (StrongGeneratorWrapper (Some g) c d) ->
  self < next_wid σ ->
  In (HWrapper self) live ->
  exists w1 σ1 w2 σ2,
    with_weak_ref self σ = (Ret w1, σ1) /\
    collect live g σ1 = (Ret (), σ1) /\
    with_strong_ref w1 σ1 = (Ret w2, σ2) /\
    wrappers σ2 !! w2 = Some (StrongGeneratorWrapper (Some g) c d) /\
    wrappers σ2 !! self = Some (StrongGeneratorWrapper (Some g) c d) /\
    gens σ2 = gens σ /\
    generator w2 σ2 = (Ret (Some g), σ2) /\
    generator self σ2 = (Ret (Some g), σ2) /\
    forall σ' v,
      wrappers σ' !! w2 = Some (StrongGeneratorWrapper (Some g) c d) ->
      wrappers σ' !! self = Some (StrongGeneratorWrapper (Some g) c d) ->
      resume body w2 v σ' = resume body self v σ'.
Proof.
  intros Hw Hlt Hin.
  assert (Hne : next_wid σ <> self) by lia.
  assert (Hresume : forall σ' w v,
             wrappers σ' !! w = Some (StrongGeneratorWrapper (Some g) c d) ->
             resume body w v σ' =
               (let σ1 := announce_send d (Some g) v σ' in
                if c then
                  except_StopIteration (obj_send body (Some g) v)
                    (mret VNone) σ1
                else (obj_send body (Some g) v ≫= fun _ => mret VNone) σ1)).
  { intros σ' w v Hw'.
    rewrite (resume_eq w (Some g)), (_send_eq _ _ _ _ _ Hw'); [reflexivity |].
    unfold generator. unfold_monad. rewrite Hw'. reflexivity. }
  destruct d.
  all: eexists _, _, _, _.
  all: split; [unfold with_weak_ref, generator, new_WeakGeneratorWrapper,
                 weakref_ref, GeneratorWrapperBase_init;
               unfold_monad; rewrite Hw; store_simpl; rewrite Hw;
               reflexivity |].
  all: split; [unfold collect;
               erewrite held_by_strong_wrapper;
                 [reflexivity | | exact Hin];
               store_simpl; rewrite lookup_insert_ne by exact Hne;
               exact Hw |].
  all: split; [unfold with_strong_ref, generator, weakref_call,
                 new_StrongGeneratorWrapper, GeneratorWrapperBase_init;
               unfold_monad; store_simpl;
               repeat (rewrite lookup_insert_eq; store_simpl);
               reflexivity |].
  all: store_simpl.
  all: assert (Hne2 : S (next_wid σ) <> self) by lia.
  all: split; [apply lookup_insert_eq |].
  all: split; [rewrite !lookup_insert_ne by assumption; exact Hw |].
  all: split; [reflexivity |].
  all: split; [unfold generator; unfold_monad; store_simpl;
               rewrite lookup_insert_eq; reflexivity |].
  all: split; [unfold generator; unfold_monad; store_simpl;
               rewrite !lookup_insert_ne by assumption; rewrite Hw;
               reflexivity |].
  all: intros σ' v H2 H1; rewrite (Hresume _ _ _ H2), (Hresume _ _ _ H1);
    reflexivity.
Qed.

(** C9, as the code has it.  A conversion never changes a wrapper that
    exists, the receiver included.  Asked for the mode it already has, a
    wrapper returns itself and the store is untouched.  Asked for the
    other mode, a weak wrapper returns a new strong wrapper, at an
    address that was not in use, around what its weak reference
    resolves to and with its own flags; a strong wrapper around a
    generator returns a new weak wrapper, at an address that was not in
    use, whose weak reference points to that generator, with its own
    flags; and a strong wrapper around [None] raises [TypeError] and
    leaves the store as it was. *)
Theorem conversion_never_mutates (cv : conversion) σ self o :
  wrappers σ !! self = Some o ->
  self < next_wid σ ->
  (forall r c d, o = WeakGeneratorWrapper r c d ->
                 is_Some (weakrefs σ !! r)) ->
  (forall w o', w < next_wid σ -> wrappers σ !! w = Some o' ->
                wrappers (snd (convert cv self σ)) !! w = Some o') /\
  (ownership_mode o = target_mode cv ->
   convert cv self σ = (Ret self, σ)) /\
  (ownership_mode o <> target_mode cv ->
   match o with
   | WeakGeneratorWrapper r c d =>
       exists wr,
         weakrefs σ !! r = Some wr /\
         fst (convert cv self σ) = Ret (next_wid σ) /\
         wrappers (snd (convert cv self σ)) !! next_wid σ =
           Some (StrongGeneratorWrapper (wr_target wr) c d)
   | StrongGeneratorWrapper (Some g) c d =>
       fst (convert cv self σ) = Ret (next_wid σ) /\
       wrappers (snd (convert cv self σ)) !! next_wid σ =
         Some (WeakGeneratorWrapper (next_wrid σ) c d) /\
       weakrefs (snd (convert cv self σ)) !! next_wrid σ =
         Some (Weakref (Some g) None)
   | StrongGeneratorWrapper None c d =>
       convert cv self σ =
         (Raise (Exn TypeError
                   [VStr "cannot create weak reference to 'NoneType' object"]),
          σ)
   end).
Proof.
  intros Hw Hlt Hwf.
  assert (Hkeep : forall w (o1 o2 : wrapper), w < next_wid σ ->
            wrappers σ !! w = Some o2 ->
            <[next_wid σ := o1]> (wrappers σ) !! w = Some o2).
  { intros w o1 o2 Hw1 Hw2. rewrite lookup_insert_ne by lia. exact Hw2. }
  destruct o as [r c d | t c d].
  - (* the receiver is weak *)
    assert (Hweak : with_weak_ref self σ = (Ret self, σ))
      by (apply (with_weak_ref_weak _ _ _ _ _ Hw)).
    assert (Hstrong := with_strong_ref_weak _ _ _ _ _ Hw).
    destruct (Hwf r c d eq_refl) as [wr Hr].
    rewrite Hr in Hstrong.
    destruct (new_StrongGeneratorWrapper_eq (wr_target wr) c d σ)
      as (Hf & Hs).
    assert (Hcases :
      (forall w o', w < next_wid σ -> wrappers σ !! w = Some o' ->
         wrappers (snd (with_strong_ref self σ)) !! w = Some o') /\
      exists wr0,
        weakrefs σ !! r = Some wr0 /\
        fst (with_strong_ref self σ) = Ret (next_wid σ) /\
        wrappers (snd (with_strong_ref self σ)) !! next_wid σ =
          Some (StrongGeneratorWrapper (wr_target wr0) c d)).
    { rewrite Hstrong, Hf, Hs. split.
      - intros w o' Hlt' Hw'. apply Hkeep; assumption.
      - exists wr. split; [exact Hr |]. split; [reflexivity |].
        apply lookup_insert_eq. }
    destruct cv; cbn [convert target_mode ownership_mode]; unfold call.
    + split; [apply Hcases |]. split; [intros [=] |].
      intros _. apply Hcases.
    + rewrite Hweak. split; [intros; assumption |].
      split; [reflexivity | intros Hm; congruence].
    + split; [apply Hcases |]. split; [intros [=] |].
      intros _. apply Hcases.
  - (* the receiver is strong *)
    assert (Hstrong : with_strong_ref self σ = (Ret self, σ))
      by (apply (with_strong_ref_strong _ _ _ _ _ Hw)).
    assert (Hweak := with_weak_ref_strong _ _ _ _ _ Hw).
    destruct cv; cbn [convert target_mode ownership_mode]; unfold call.
    + rewrite Hstrong. split; [intros; assumption |].
      split; [reflexivity | intros Hm; congruence].
    + rewrite Hweak. destruct t as [g|].
      * rewrite new_WeakGeneratorWrapper_run.
        split; [| split; [intros [=] |]].
        -- intros w o' Hlt' Hw'. unfold wrapped.
           destruct d; cbn; apply Hkeep; assumption.
        -- intros _. unfold wrapped.
           destruct d; cbn; rewrite !lookup_insert_eq; auto.
      * split; [intros; assumption |].
        split; [intros [=] | intros _; reflexivity].
    + rewrite Hstrong. split; [intros; assumption |].
      split; [reflexivity | intros Hm; congruence].
Qed.

(** ** C10: what the [send] and [throw] properties return *)

(** Resuming a generator does not look at the weak references. *)
Lemma _send_weakrefs self t v m σ :
  _send body self t v (with_weakrefs m σ) =
    (fst (_send body self t v σ),
     with_weakrefs m (snd (_send body self t v σ))).
Proof.
  unfold _send, obj_send, gen_send, gen_resume, run_body, with_weakrefs.
  unfold_monad. store_simpl.
  destruct (wrappers σ !! self) as [o|]; [| reflexivity].
  destruct (debug o), (catch_stopiteration o), t as [g|]; store_simpl;
    try reflexivity.
  all: destruct (gens σ !! g) as [[s|s|]|]; store_simpl; try reflexivity.
  all: try (destruct (is_None v); store_simpl; try reflexivity).
  all: match goal with
       | |- context [body ?s ?i] => destruct (body s i) as [v' s'|v'|e']
       end; store_simpl; try reflexivity.
  all: destruct (is_StopIteration _); reflexivity.
Qed.

Lemma _throw_weakrefs self t e m σ :
  _throw body self t e (with_weakrefs m σ) =
    (fst (_throw body self t e σ),
     with_weakrefs m (snd (_throw body self t e σ))).
Proof.
  unfold _throw, obj_throw, gen_throw, run_body, with_weakrefs.
  unfold_monad. store_simpl.
  destruct (wrappers σ !! self) as [o|]; [| reflexivity].
  destruct (debug o), (catch_stopiteration o), t as [g|]; store_simpl;
    try reflexivity.
  all: destruct (gens σ !! g) as [[s|s|]|]; store_simpl; try reflexivity.
  all: try match goal with
       | |- context [body ?s ?i] => destruct (body s i) as [v' s'|v'|e']
       end; store_simpl; try reflexivity.
  all: try (destruct (is_StopIteration _); reflexivity).
Qed.

(** The generator that is entered, as the trace records it. *)
Lemma trace_gen_resume g v σ :
  trace (snd (gen_resume body g v σ)) = trace σ.
Proof.
  unfold gen_resume, run_body. unfold_monad.
  destruct (gens σ !! g) as [[s|s|]|]; store_simpl; try reflexivity.
  - destruct (is_None v); [| reflexivity].
    destruct (body s (Sent VNone)); reflexivity.
  - destruct (body s (Sent v)); reflexivity.
Qed.

Lemma trace__send self o g v σ :
  wrappers σ !! self = Some o ->
  trace (snd (_send body self (Some g) v σ)) =
    EvSend g v :: trace (announce_send (debug o) (Some g) v σ).
Proof.
  intros Hw. rewrite (_send_eq _ _ _ _ _ Hw). cbn zeta.
  set (σ1 := announce_send _ _ _ _).
  pose proof (trace_gen_resume g v (log (EvSend g v) σ1)) as Ht.
  destruct (catch_stopiteration o).
  - unfold except_StopIteration, obj_send. rewrite gen_send_eq.
    destruct (gen_resume body g v (log (EvSend g v) σ1)) as [[a|e|] σ2];
      cbn in *; try exact Ht.
    destruct (is_StopIteration e); exact Ht.
  - unfold obj_send. rewrite bind_run, gen_send_eq.
    destruct (gen_resume body g v (log (EvSend g v) σ1)) as [[a|e|] σ2];
      cbn in *; exact Ht.
Qed.

Lemma held_by_partial σ live (h : holder) g :
  In h live ->
  In g (referents σ h) ->
  held σ live g = true.
Proof.
  intros Hin Hg. unfold held. apply existsb_exists.
  exists h. split; [exact Hin |].
  apply existsb_exists. exists g. split; [exact Hg |].
  apply Nat.eqb_refl.
Qed.

(** Through [_send] and [_throw] the body of the generator they are
    given is entered, with the value or the exception they are given. *)
Lemma _send_enters self o g s v σ :
  wrappers σ !! self = Some o ->
  gens σ !! g = Some (Suspended s) ->
  fst (_send body self (Some g) v σ) =
    (if catch_stopiteration o then
       match body s (Sent v) with
       | BYield v' _ => Ret v'
       | BReturn _ => Ret VNone
       | BRaise e => if is_StopIteration e then Ret VNone else Raise e
       end
     else
       match body s (Sent v) with
       | BYield _ _ => Ret VNone
       | BReturn x => Raise (stop_iteration x)
       | BRaise e => Raise e
       end) /\
  gens (snd (_send body self (Some g) v σ)) !! g =
    Some (status_after (body s (Sent v))).
Proof.
  intros Hw Hs. rewrite (_send_eq _ _ _ _ _ Hw). cbn zeta.
  unfold except_StopIteration, obj_send.
  rewrite bind_run, gen_send_eq, (gen_resume_suspended _ s)
    by (cbn; rewrite gens_announce_send; exact Hs).
  destruct (catch_stopiteration o), (body s (Sent v)) as [v' s'|x|e'];
    cbn; try (split; [reflexivity | apply lookup_insert_eq]).
  destruct (is_StopIteration e'); split; try reflexivity;
    apply lookup_insert_eq.
Qed.

Lemma _throw_enters self o g s e σ :
  wrappers σ !! self = Some o ->
  gens σ !! g = Some (Suspended s) ->
  fst (_throw body self (Some g) e σ) =
    (if catch_stopiteration o then
       match body s (Thrown e) with
       | BYield v' _ => Ret v'
       | BReturn _ => Ret VNone
       | BRaise e' => if is_StopIteration e' then Ret VNone else Raise e'
       end
     else
       match body s (Thrown e) with
       | BYield _ _ => Ret VNone
       | BReturn x => Raise (stop_iteration x)
       | BRaise e' => Raise e'
       end) /\
  gens (snd (_throw body self (Some g) e σ)) !! g =
    Some (status_after (body s (Thrown e))) /\
  trace (snd (_throw body self (Some g) e σ)) =
    EvThrow g e :: trace (announce_throw (debug o) (Some g) e σ).
Proof.
  intros Hw Hs. rewrite (_throw_eq _ _ _ _ _ Hw). cbn zeta.
  unfold except_StopIteration, obj_throw.
  rewrite bind_run, gen_throw_eq, gens_announce_throw, Hs.
  destruct (catch_stopiteration o), (body s (Thrown e)) as [v' s'|x|e'];
    cbn; try (repeat apply conj; try reflexivity; apply lookup_insert_eq).
  destruct (is_StopIteration e'); repeat apply conj; try reflexivity;
    apply lookup_insert_eq.
Qed.

(** C10. A weak wrapper whose weak reference still points to a
    generator is asked for its [send] and its [throw] property.  Each
    read calls the weak reference once and returns a partial that is
    bound to the generator object, leaving the store as it was.  Calling
    a partial later, in any store that still has the wrapper and the
    generator parked, enters the body of that generator, with the value
    for [send] and with the exception for [throw]: the outcome is what
    that body makes of it, the generator gets the status that entry
    leaves, and the trace records the [send] or the [throw] on that
    generator.  None of this looks at the wrapper's weak reference:
    replacing the table of weak references by any other one changes
    neither the result nor the rest of the store.  As long as a partial
    is among the living holders, the collector does not deallocate the
    generator. *)
Theorem send_binds_generator σ self r c d g cb :
  wrappers σ !! self = Some (WeakGeneratorWrapper r c d) ->
  weakrefs σ !! r = Some (Weakref (Some g) cb) ->
  let p := SendPartial self (Some g) in
  let q := ThrowPartial self (Some g) in
  send self σ = (Ret p, σ) /\
  throw self σ = (Ret q, σ) /\
  (forall σ' m v,
     call_send body p v (with_weakrefs m σ') =
       (fst (call_send body p v σ'),
        with_weakrefs m (snd (call_send body p v σ')))) /\
  (forall σ' m e,
     call_throw body q e (with_weakrefs m σ') =
       (fst (call_throw body q e σ'),
        with_weakrefs m (snd (call_throw body q e σ')))) /\
  (forall σ' v,
     wrappers σ' !! self = Some (WeakGeneratorWrapper r c d) ->
     trace (snd (call_send body p v σ')) =
       EvSend g v :: trace (announce_send d (Some g) v σ')) /\
  (forall σ' live,
     In (HSend p) live \/ In (HThrow q) live ->
     collect live g σ' = (Ret (), σ')) /\
  (forall σ' s v,
     wrappers σ' !! self = Some (WeakGeneratorWrapper r c d) ->
     gens σ' !! g = Some (Suspended s) ->
     fst (call_send body p v σ') =
       (if c then
          match body s (Sent v) with
          | BYield v' _ => Ret v'
          | BReturn _ => Ret VNone
          | BRaise e => if is_StopIteration e then Ret VNone else Raise e
          end
        else
          match body s (Sent v) with
          | BYield _ _ => Ret VNone
          | BReturn x => Raise (stop_iteration x)
          | BRaise e => Raise e
          end) /\
     gens (snd (call_send body p v σ')) !! g =
       Some (status_after (body s (Sent v)))) /\
  (forall σ' s e,
     wrappers σ' !! self = Some (WeakGeneratorWrapper r c d) ->
     gens σ' !! g = Some (Suspended s) ->
     fst (call_throw body q e σ') =
       (if c then
          match body s (Thrown e) with
          | BYield v' _ => Ret v'
          | BReturn _ => Ret VNone
          | BRaise e' => if is_StopIteration e' then Ret VNone else Raise e'
          end
        else
          match body s (Thrown e) with
          | BYield _ _ => Ret VNone
          | BReturn x => Raise (stop_iteration x)
          | BRaise e' => Raise e'
          end) /\
     gens (snd (call_throw body q e σ')) !! g =
       Some (status_after (body s (Thrown e))) /\
     trace (snd (call_throw body q e σ')) =
       EvThrow g e :: trace (announce_throw d (Some g) e σ')).
Proof.
  intros Hw Hr p q.
  assert (Hg : generator self σ = (Ret (Some g), σ)).
  { rewrite (generator_weak _ _ _ _ _ Hw), Hr. reflexivity. }
  repeat apply conj.
  - unfold send. rewrite bind_run, Hg. reflexivity.
  - unfold throw. rewrite bind_run, Hg. reflexivity.
  - intros σ' m v. apply _send_weakrefs.
  - intros σ' m e. apply _throw_weakrefs.
  - intros σ' v Hw'. unfold call_send. cbn [p sp_self sp_generator].
    apply (trace__send _ _ _ _ _ Hw').
  - intros σ' live [Hin|Hin]; unfold collect;
      erewrite held_by_partial; try reflexivity; try exact Hin;
      cbn; left; reflexivity.
  - intros σ' s v Hw' Hs. unfold call_send. cbn [p sp_self sp_generator].
    apply (_send_enters _ _ _ _ _ _ Hw' Hs).
  - intros σ' s e Hw' Hs. unfold call_throw. cbn [q tp_self tp_generator].
    apply (_throw_enters _ _ _ _ _ _ Hw' Hs).
Qed.

(** ** C4: the finalizer *)

Lemma clear_weakrefs_silent g n : forall σ,
  finalizer_free g σ ->
  fst (clear_weakrefs g n σ) = Ret () /\
  trace (snd (clear_weakrefs g n σ)) = trace σ /\
  gens (snd (clear_weakrefs g n σ)) = gens σ.
Proof.
  induction n as [|r IH]; intros σ Hfree; [repeat split |].
  cbn [clear_weakrefs]. rewrite bind_run.
  destruct (weakrefs σ !! r) as [[[g'|] cb]|] eqn:Hr;
    try (apply IH; exact Hfree).
  destruct (decide (g' = g)) as [->|Hne]; [| apply IH; exact Hfree].
  assert (cb = None) as -> by exact (Hfree r _ Hr eq_refl).
  unfold_monad. store_simpl.
  match goal with
  | |- context [clear_weakrefs g r ?σ1] =>
      destruct (IH σ1) as (H1 & H2 & H3)
  end.
  - intros r' wr Hr' Htg. cbn [weakrefs] in Hr'.
    destruct (decide (r = r')) as [<-|Hrr].
    + rewrite lookup_insert_eq in Hr'. injection Hr' as <-.
      discriminate Htg.
    + rewrite lookup_insert_ne in Hr' by exact Hrr.
      exact (Hfree _ _ Hr' Htg).
  - rewrite H1, H2, H3. repeat split.
Qed.

Lemma collect_silent cb live g σ :
  finalizer_free g σ ->
  fired cb (trace (snd (collect live g σ))) = fired cb (trace σ) /\
  (held σ live g = false -> gens (snd (collect live g σ)) !! g = None).
Proof.
  intros Hfree. unfold collect.
  destruct (held σ live g); [split; [reflexivity | discriminate] |].
  unfold dealloc. rewrite bind_run.
  destruct (clear_weakrefs_silent g (next_wrid σ) σ Hfree) as (H1 & H2 & H3).
  destruct (clear_weakrefs g (next_wrid σ) σ) as [res σ1].
  cbn in H1, H2, H3. subst res. unfold_monad. store_simpl.
  rewrite H2, H3. split; [reflexivity |].
  intros _. apply lookup_delete_eq.
Qed.

(** What the launcher leaves in the table of weak references and in the
    trace, whether it returns or raises. *)
Lemma launcher_registration (func : genfunc St) c cb d args σ :
  let σ1 := snd (send_self_wrapper body func c cb d args σ) in
  (weakrefs σ1 =
     delete (next_wrid σ)
       (<[next_wrid σ := Weakref (Some (next_gid σ)) cb]> (weakrefs σ)) \/
   weakrefs σ1 =
     <[S (next_wrid σ) := Weakref (Some (next_gid σ)) None]>
       (delete (next_wrid σ)
          (<[next_wrid σ := Weakref (Some (next_gid σ)) cb]>
             (weakrefs σ)))) /\
  forall f, fired f (trace σ1) = fired f (trace σ).
Proof.
  rewrite launcher_run. cbn zeta.
  destruct (body (func args) (Sent VNone)) as [v1 s1|r|e];
    try (split; [left; reflexivity | reflexivity]).
  unfold wrapped.
  destruct d; (split; [right; reflexivity | reflexivity]).
Qed.

(** C4, as the code has it.  The launcher is given a finalizer [cb], in
    a store where no weak reference points to the address the new
    generator gets.  When the launcher is over, the weak reference that
    carried [cb] is gone; when the collector then deals with the
    generator, [cb] is called no more often than before the launch, also
    when no holder is left and the generator is deallocated. *)
Theorem finalize_callback_never_fires (func : genfunc St) c
    (cb : callback) d args σ live :
  (forall r wr, weakrefs σ !! r = Some wr ->
                wr_target wr <> Some (next_gid σ)) ->
  let σ1 := snd (send_self_wrapper body func c (Some cb) d args σ) in
  let σ2 := snd (collect live (next_gid σ) σ1) in
  weakrefs σ1 !! next_wrid σ = None /\
  fired cb (trace σ2) = fired cb (trace σ) /\
  (held σ1 live (next_gid σ) = false -> gens σ2 !! next_gid σ = None).
Proof.
  intros Hwf σ1 σ2.
  destruct (launcher_registration func c (Some cb) d args σ) as (Hwr & Htr).
  fold σ1 in Hwr, Htr.
  assert (Hgone : weakrefs σ1 !! next_wrid σ = None).
  { destruct Hwr as [-> | ->].
    - apply lookup_delete_eq.
    - rewrite lookup_insert_ne by lia. apply lookup_delete_eq. }
  assert (Hfree : finalizer_free (next_gid σ) σ1).
  { intros r wr Hr Htg.
    assert (Hcases : wr = Weakref (Some (next_gid σ)) None \/
                     weakrefs σ !! r = Some wr).
    { destruct Hwr as [Hwr | Hwr]; rewrite Hwr in Hr.
      - right. destruct (decide (next_wrid σ = r)) as [<-|Hne].
        + rewrite lookup_delete_eq in Hr. discriminate Hr.
        + rewrite lookup_delete_ne, lookup_insert_ne in Hr by exact Hne.
          exact Hr.
      - destruct (decide (S (next_wrid σ) = r)) as [<-|Hne1].
        + left. rewrite lookup_insert_eq in Hr. congruence.
        + right. rewrite lookup_insert_ne in Hr by exact Hne1.
          destruct (decide (next_wrid σ = r)) as [<-|Hne].
          * rewrite lookup_delete_eq in Hr. discriminate Hr.
          * rewrite lookup_delete_ne, lookup_insert_ne in Hr by exact Hne.
            exact Hr. }
    destruct Hcases as [-> | Hold]; [reflexivity |].
    exfalso. exact (Hwf _ _ Hold Htg). }
  destruct (collect_silent cb live (next_gid σ) σ1 Hfree) as (Hf & Hg).
  split; [exact Hgone |]. split; [| exact Hg].
  subst σ2. rewrite Hf. apply Htr.
Qed.

End Properties.

(** * The properties at work on the two generator functions *)

(** The exhausted [numbers] generator, resumed through a wrapper that
    catches [StopIteration] and through one that does not. *)
Lemma resume_terminated_witness :
  fst (resume Demo.body 0 VNone (Demo.exhausted true)) = Ret VNone /\
  fst (resume Demo.body 0 VNone (Demo.exhausted false)) =
    Raise (Exn StopIteration []).
Proof.
  split.
  - apply (resume_terminated Demo.body (Demo.exhausted true) 0
             (WeakGeneratorWrapper 1 true false) 0 VNone);
      vm_compute; reflexivity.
  - apply (resume_terminated Demo.body (Demo.exhausted false) 0
             (WeakGeneratorWrapper 1 false false) 0 VNone);
      vm_compute; reflexivity.
Defined.

Lemma launcher_sends_self_witness :
  exists σ',
    send_self_wrapper Demo.body Demo.numbers true (Some Demo.finalized)
      false [] empty_store = (Ret (VStr "first"), σ') /\
    trace σ' =
      [EvSend 0 (VWrapper 0); EvNewWrapper 0 Weak; EvWeakrefNew 1 0 None;
       EvNext 0; EvWeakrefDel 0; EvWeakrefNew 0 0 (Some Demo.finalized);
       EvCreate 0] /\
    wrappers σ' !! 0 = Some (WeakGeneratorWrapper 1 true false) /\
    weakrefs σ' !! 1 = Some (Weakref (Some 0) None) /\
    gens σ' !! 0 = Some (Suspended Demo.N2).
Proof.
  apply (launcher_sends_self Demo.body Demo.numbers true
           (Some Demo.finalized) false [] empty_store
           (VStr "first") Demo.N1 (VStr "second") Demo.N2);
    reflexivity.
Defined.

(** [single] returns when it is sent the wrapper: the launcher raises
    [StopIteration] although [catch_stopiteration] is on, where resuming
    through the wrapper at the same point returns [None]. *)
Lemma launcher_raises_StopIteration :
  fst (send_self_wrapper Demo.body Demo.single true None false []
         empty_store) = Raise (Exn StopIteration []) /\
  fst (resume Demo.body 0 (VWrapper 0) Demo.single_started) = Ret VNone.
Proof. repeat apply conj; vm_compute; reflexivity. Qed.

Lemma resume_not_catching_witness :
  fst (resume Demo.body 0 VNone (Demo.launched false)) = Ret VNone /\
  Demo.body Demo.N2 (Sent VNone) = BYield (VStr "third") Demo.N3.
Proof.
  split; [| reflexivity].
  apply (resume_not_catching Demo.body (Demo.launched false) 0
           (WeakGeneratorWrapper 1 false false) 0 Demo.N2 VNone);
    vm_compute; reflexivity.
Defined.

(** [numbers] handles the [TypeError] thrown at [yield "second"] and
    yields ["sorry"]. *)
Lemma throw_into_catching_witness :
  fst (throw_into Demo.body 0 Demo.type_error (Demo.launched true)) =
    Ret (VStr "sorry").
Proof.
  apply (throw_into_catching Demo.body (Demo.launched true) 0
           (WeakGeneratorWrapper 1 true false) 0 Demo.type_error);
    vm_compute; reflexivity.
Defined.

(** On the exhausted generator the same wrapper answers [resume] with
    [None] and [throw_into] with the injected [TypeError]. *)
Lemma throw_into_terminated_raises :
  gens (Demo.exhausted true) !! 0 = Some Finished /\
  wrappers (Demo.exhausted true) !! 0 =
    Some (WeakGeneratorWrapper 1 true false) /\
  fst (resume Demo.body 0 VNone (Demo.exhausted true)) = Ret VNone /\
  fst (throw_into Demo.body 0 Demo.type_error (Demo.exhausted true)) =
    Raise Demo.type_error.
Proof. repeat apply conj; vm_compute; reflexivity. Qed.

(** After the generator was collected, the weak wrapper it was sent
    raises [AttributeError] from [resume], [throw_into] and [close]. *)
Lemma dangling_operations_raise :
  generator 0 (Demo.collected true) = (Ret None, Demo.collected true) /\
  fst (resume Demo.body 0 VNone (Demo.collected true)) =
    Raise (no_attribute "send") /\
  fst (throw_into Demo.body 0 Demo.type_error (Demo.collected true)) =
    Raise (no_attribute "throw") /\
  fst (do_close Demo.body 0 (Demo.collected true)) =
    Raise (no_attribute "close").
Proof. repeat apply conj; vm_compute; reflexivity. Qed.

Lemma dangling_weak_wrapper_witness :
  generator 0 (Demo.collected true) = (Ret None, Demo.collected true) /\
  exists σ',
    with_strong_ref 0 (Demo.collected true) = (Ret 1, σ') /\
    wrappers σ' !! 1 = Some (StrongGeneratorWrapper None true false).
Proof.
  pose proof (dangling_weak_wrapper Demo.body (Demo.collected true)
                0 1 true false None eq_refl eq_refl) as (H1 & _ & H3 & _).
  split; [exact H1 | exact H3].
Defined.

Lemma strong_weak_strong_witness :
  exists w1 σ1 w2 σ2,
    with_weak_ref 1 Demo.strengthened = (Ret w1, σ1) /\
    collect [HWrapper 1] 0 σ1 = (Ret (), σ1) /\
    with_strong_ref w1 σ1 = (Ret w2, σ2) /\
    wrappers σ2 !! w2 = Some (StrongGeneratorWrapper (Some 0) true false) /\
    generator w2 σ2 = (Ret (Some 0), σ2) /\
    resume Demo.body w2 VNone σ2 = resume Demo.body 1 VNone σ2.
Proof.
  destruct (strong_weak_strong Demo.body Demo.strengthened 1 0 true false
              [HWrapper 1])
    as (w1 & σ1 & w2 & σ2 & H1 & H2 & H3 & H4 & H5 & _ & H7 & _ & H9).
  - reflexivity.
  - vm_compute. lia.
  - left. reflexivity.
  - exists w1, σ1, w2, σ2. repeat split; try assumption.
    apply H9; assumption.
Defined.

(** A weak wrapper asked for a weak variant, and a strong wrapper asked
    for a strong one or called, return themselves: no wrapper is made. *)
Lemma same_mode_conversion_returns_self :
  wrappers (Demo.launched true) !! 0 =
    Some (WeakGeneratorWrapper 1 true false) /\
  with_weak_ref 0 (Demo.launched true) = (Ret 0, Demo.launched true) /\
  wrappers Demo.strengthened !! 1 =
    Some (StrongGeneratorWrapper (Some 0) true false) /\
  with_strong_ref 1 Demo.strengthened = (Ret 1, Demo.strengthened) /\
  call 1 Demo.strengthened = (Ret 1, Demo.strengthened).
Proof. repeat apply conj; vm_compute; reflexivity. Qed.

Lemma conversion_never_mutates_witness :
  convert WithWeakRef 0 (Demo.launched true) = (Ret 0, Demo.launched true)
  /\ fst (convert Call 0 (Demo.launched true)) = Ret 1
  /\ wrappers (snd (convert Call 0 (Demo.launched true))) !! 1 =
       Some (StrongGeneratorWrapper (Some 0) true false)
  /\ fst (convert WithWeakRef 1 Demo.strengthened) = Ret 2
  /\ fst (convert WithWeakRef 1
            (snd (with_strong_ref 0 (Demo.collected true)))) =
       Raise (Exn TypeError
                [VStr "cannot create weak reference to 'NoneType' object"]).
Proof.
  pose proof (conversion_never_mutates WithWeakRef (Demo.launched true) 0
                (WeakGeneratorWrapper 1 true false) eq_refl) as H1.
  pose proof (conversion_never_mutates Call (Demo.launched true) 0
                (WeakGeneratorWrapper 1 true false) eq_refl) as H2.
  pose proof (conversion_never_mutates WithWeakRef Demo.strengthened 1
                (StrongGeneratorWrapper (Some 0) true false) eq_refl) as H3.
  pose proof (conversion_never_mutates WithWeakRef
                (snd (with_strong_ref 0 (Demo.collected true))) 1
                (StrongGeneratorWrapper None true false) eq_refl) as H4.
  assert (Hweak : forall r c d,
            WeakGeneratorWrapper 1 true false = WeakGeneratorWrapper r c d ->
            is_Some (weakrefs (Demo.launched true) !! r)).
  { intros r c d [= <- _ _]. eexists. reflexivity. }
  destruct H1 as (_ & H1 & _); [vm_compute; lia | exact Hweak |].
  destruct H2 as (_ & _ & H2); [vm_compute; lia | exact Hweak |].
  destruct H3 as (_ & _ & H3); [vm_compute; lia | intros ? ? ? [=] |].
  destruct H4 as (_ & _ & H4); [vm_compute; lia | intros ? ? ? [=] |].
  destruct (H2 ltac:(discriminate)) as (wr & Hwr & H2a & H2b).
  assert (wr = Weakref (Some 0) None) as ->.
  { change (weakrefs (Demo.launched true) !! 1)
      with (Some (Weakref (Some 0) None)) in Hwr. congruence. }
  repeat apply conj.
  - apply H1. reflexivity.
  - exact H2a.
  - exact H2b.
  - apply (H3 ltac:(discriminate)).
  - rewrite (H4 ltac:(discriminate)). reflexivity.
Defined.

(** The partial read from the wrapper of [launched] still resumes the
    generator after the weak reference was cleared, where the wrapper
    itself no longer can. *)
Lemma send_binds_generator_witness :
  send 0 (Demo.launched true) =
    (Ret (SendPartial 0 (Some 0)), Demo.launched true) /\
  fst (call_send Demo.body (SendPartial 0 (Some 0)) VNone Demo.cleared) =
    Ret (VStr "third") /\
  fst (call_throw Demo.body (ThrowPartial 0 (Some 0)) Demo.type_error
         Demo.cleared) = Ret (VStr "sorry") /\
  gens (snd (call_throw Demo.body (ThrowPartial 0 (Some 0)) Demo.type_error
               Demo.cleared)) !! 0 = Some (Suspended Demo.N4) /\
  fst (resume Demo.body 0 VNone Demo.cleared) =
    Raise (no_attribute "send") /\
  collect [HSend (SendPartial 0 (Some 0))] 0 Demo.cleared =
    (Ret (), Demo.cleared).
Proof.
  destruct (send_binds_generator Demo.body (Demo.launched true)
              0 1 true false 0 None eq_refl eq_refl)
    as (H1 & _ & _ & _ & _ & H6 & H7 & H8).
  destruct (H7 Demo.cleared Demo.N2 VNone eq_refl eq_refl) as (H7a & _).
  destruct (H8 Demo.cleared Demo.N2 Demo.type_error eq_refl eq_refl)
    as (H8a & H8b & _).
  repeat apply conj.
  - exact H1.
  - exact H7a.
  - exact H8a.
  - exact H8b.
  - vm_compute. reflexivity.
  - apply H6. left. left. reflexivity.
Defined.

(** [numbers] is launched with the finalizer [finalized] and nothing
    holds the generator afterwards: it is collected, and [finalized] has
    not been called. *)
Lemma finalize_callback_never_fires_witness :
  gens (Demo.collected true) !! 0 = None /\
  fired Demo.finalized (trace (Demo.collected true)) = 0 /\
  weakrefs (Demo.launched true) !! 0 = None.
Proof.
  destruct (finalize_callback_never_fires Demo.body Demo.numbers true
              Demo.finalized false [] empty_store [])
    as (H1 & H2 & H3).
  - intros r wr Hr. cbn in Hr. rewrite lookup_empty in Hr.
    discriminate Hr.
  - repeat apply conj.
    + apply H3. reflexivity.
    + exact H2.
    + exact H1.
Defined.

(** * Further properties of the wrappers and of the launcher *)

Section Further.

Context {St : Type}.
Variable body : St -> entry -> body_result St.
Implicit Types (σ : store St) (g : gid) (self w : wid) (r : wrid)
               (v : val) (e : exn) (o : wrapper) (s : St).

(** ** Resuming and throwing *)

(** Reading the [generator] attribute changes nothing, and only looks at
    the wrappers and the weak references. *)
Lemma generator_readonly self σ : snd (generator self σ) = σ.
Proof.
  unfold generator, weakref_call. unfold_monad.
  destruct (wrappers σ !! self) as [[r c d|t c d]|]; try reflexivity.
  destruct (weakrefs σ !! r); reflexivity.
Qed.

Lemma generator_same_tables self σ σ' :
  wrappers σ' = wrappers σ ->
  weakrefs σ' = weakrefs σ ->
  fst (generator self σ') = fst (generator self σ).
Proof.
  intros Hw Hr. unfold generator, weakref_call. unfold_monad.
  rewrite Hw. destruct (wrappers σ !! self) as [[r c d|t c d]|];
    try reflexivity.
  rewrite Hr. destruct (weakrefs σ !! r); reflexivity.
Qed.

Lemma generator_after self t σ σ' :
  generator self σ = (Ret t, σ) ->
  wrappers σ' = wrappers σ ->
  weakrefs σ' = weakrefs σ ->
  generator self σ' = (Ret t, σ').
Proof.
  intros Hg Hw Hr.
  rewrite (surjective_pairing (generator self σ')).
  rewrite generator_readonly, (generator_same_tables _ _ _ Hw Hr), Hg.
  reflexivity.
Qed.

(** Resuming a generator that has finished, whatever the trace is. *)
Lemma resume_finished self o g v σ :
  wrappers σ !! self = Some o ->
  generator self σ = (Ret (Some g), σ) ->
  gens σ !! g = Some Finished ->
  fst (resume body self v σ) =
    if catch_stopiteration o then Ret VNone
    else Raise (Exn StopIteration []).
Proof.
  intros Hw Hg Hfin.
  rewrite (resume_eq _ _ _ _ _ Hg), (_send_eq _ _ _ _ _ _ Hw). cbn zeta.
  set (σ1 := announce_send _ _ _ _).
  assert (Hfin1 : gens (log (EvSend g v) σ1) !! g = Some Finished).
  { subst σ1. cbn. rewrite gens_announce_send. exact Hfin. }
  destruct (catch_stopiteration o).
  - unfold except_StopIteration, obj_send.
    rewrite gen_send_eq, (gen_resume_finished _ _ _ _ Hfin1). reflexivity.
  - unfold obj_send. rewrite bind_run.
    rewrite gen_send_eq, (gen_resume_finished _ _ _ _ Hfin1). reflexivity.
Qed.

(** X3. An exception is thrown into a parked generator whose body lets
    an exception other than [StopIteration] escape.  That exception
    reaches the caller of [throw_into] whether the wrapper catches
    [StopIteration] or not, the generator has finished, and resuming it
    afterwards gives [None] or [StopIteration] as for any finished
    generator. *)
Theorem throw_into_uncaught σ self o g s e e' v :
  wrappers σ !! self = Some o ->
  generator self σ = (Ret (Some g), σ) ->
  gens σ !! g = Some (Suspended s) ->
  body s (Thrown e) = BRaise e' ->
  is_StopIteration e' = false ->
  let σ' := snd (throw_into body self e σ) in
  fst (throw_into body self e σ) = Raise e' /\
  gens σ' !! g = Some Finished /\
  fst (resume body self v σ') =
    (if catch_stopiteration o then Ret VNone
     else Raise (Exn StopIteration [])).
Proof.
  intros Hw Hg Hs Hb Hne σ'.
  assert (Hrun : throw_into body self e σ =
                 (Raise e', put_gen g Finished
                              (log (EvThrow g e)
                                 (announce_throw (debug o) (Some g) e σ)))).
  { rewrite (throw_into_eq _ _ _ _ _ Hg), (_throw_eq _ _ _ _ _ _ Hw).
    cbn zeta. unfold except_StopIteration, obj_throw.
    rewrite bind_run, gen_throw_eq, gens_announce_throw, Hs, Hb.
    cbn [outcome_of status_after]. rewrite Hne.
    destruct (catch_stopiteration o); reflexivity. }
  assert (Hfin : gens σ' !! g = Some Finished).
  { subst σ'. rewrite Hrun. cbn. apply lookup_insert_eq. }
  split; [rewrite Hrun; reflexivity |]. split; [exact Hfin |].
  apply (resume_finished self o g v σ').
  - subst σ'. rewrite Hrun. cbn.
    destruct (debug o); exact Hw.
  - apply (generator_after self (Some g) σ σ' Hg);
      subst σ'; rewrite Hrun; destruct (debug o); reflexivity.
  - exact Hfin.
Qed.

(** The outcome of entering a generator, and the generators afterwards,
    depend on the store through its generators only. *)
Lemma gen_resume_gens g v σ1 σ2 :
  gens σ1 = gens σ2 ->
  fst (gen_resume body g v σ1) = fst (gen_resume body g v σ2) /\
  gens (snd (gen_resume body g v σ1)) = gens (snd (gen_resume body g v σ2)).
Proof.
  intros H. unfold gen_resume, run_body. unfold_monad. rewrite H.
  destruct (gens σ2 !! g) as [[s|s|]|]; store_simpl; try (split; congruence).
  - destruct (is_None v); store_simpl; [| split; congruence].
    destruct (body s (Sent VNone)); store_simpl; rewrite H; split; reflexivity.
  - destruct (body s (Sent v)); store_simpl; rewrite H; split; reflexivity.
Qed.

Lemma obj_send_gens t v σ1 σ2 :
  gens σ1 = gens σ2 ->
  fst (obj_send body t v σ1) = fst (obj_send body t v σ2) /\
  gens (snd (obj_send body t v σ1)) = gens (snd (obj_send body t v σ2)).
Proof.
  intros H. destruct t as [g|]; [| split; [reflexivity | exact H]].
  unfold obj_send. rewrite !gen_send_eq. apply gen_resume_gens. exact H.
Qed.

Lemma obj_throw_gens t e σ1 σ2 :
  gens σ1 = gens σ2 ->
  fst (obj_throw body t e σ1) = fst (obj_throw body t e σ2) /\
  gens (snd (obj_throw body t e σ1)) = gens (snd (obj_throw body t e σ2)).
Proof.
  intros H. destruct t as [g|]; [| split; [reflexivity | exact H]].
  unfold obj_throw. rewrite !gen_throw_eq, H.
  destruct (gens σ2 !! g) as [[s|s|]|]; cbn; rewrite ?H; split; reflexivity.
Qed.

Lemma catching_gens (m : M St val) σ1 σ2 :
  fst (m σ1) = fst (m σ2) ->
  gens (snd (m σ1)) = gens (snd (m σ2)) ->
  fst (except_StopIteration m (mret VNone) σ1) =
    fst (except_StopIteration m (mret VNone) σ2) /\
  gens (snd (except_StopIteration m (mret VNone) σ1)) =
    gens (snd (except_StopIteration m (mret VNone) σ2)).
Proof.
  unfold except_StopIteration.
  destruct (m σ1) as [[a1|e1|] τ1], (m σ2) as [[a2|e2|] τ2]; cbn;
    intros Ha Hb; try discriminate Ha; try (split; assumption).
  injection Ha as <-.
  destruct (is_StopIteration e1); split; try assumption; reflexivity.
Qed.

Lemma dropping_gens (m : M St val) σ1 σ2 :
  fst (m σ1) = fst (m σ2) ->
  gens (snd (m σ1)) = gens (snd (m σ2)) ->
  fst ((m ≫= fun _ => mret VNone) σ1) =
    fst ((m ≫= fun _ => mret VNone) σ2) /\
  gens (snd ((m ≫= fun _ => mret VNone) σ1)) =
    gens (snd ((m ≫= fun _ => mret VNone) σ2)).
Proof.
  rewrite !bind_run.
  destruct (m σ1) as [[a1|e1|] τ1], (m σ2) as [[a2|e2|] τ2]; cbn;
    intros Ha Hb; try discriminate Ha; split; try assumption; reflexivity.
Qed.

(** X4. Two wrappers that resolve to the same object and agree on
    [catch_stopiteration] are interchangeable for [resume] and for
    [throw_into], whatever their ownership modes and [debug] flags:
    same outcome for the caller, same generators afterwards. *)
Theorem wrappers_interchangeable σ self1 self2 o1 o2 t v e :
  wrappers σ !! self1 = Some o1 ->
  wrappers σ !! self2 = Some o2 ->
  generator self1 σ = (Ret t, σ) ->
  generator self2 σ = (Ret t, σ) ->
  catch_stopiteration o1 = catch_stopiteration o2 ->
  fst (resume body self1 v σ) = fst (resume body self2 v σ) /\
  gens (snd (resume body self1 v σ)) =
    gens (snd (resume body self2 v σ)) /\
  fst (throw_into body self1 e σ) = fst (throw_into body self2 e σ) /\
  gens (snd (throw_into body self1 e σ)) =
    gens (snd (throw_into body self2 e σ)).
Proof.
  intros H1 H2 G1 G2 Hc.
  rewrite !(resume_eq _ _ _ _ _ G1), !(resume_eq _ _ _ _ _ G2).
  rewrite !(throw_into_eq _ _ _ _ _ G1), !(throw_into_eq _ _ _ _ _ G2).
  rewrite !(_send_eq _ _ _ _ _ _ H1), !(_send_eq _ _ _ _ _ _ H2).
  rewrite !(_throw_eq _ _ _ _ _ _ H1), !(_throw_eq _ _ _ _ _ _ H2).
  cbn zeta. rewrite Hc.
  destruct (obj_send_gens t v
              (announce_send (debug o1) t v σ)
              (announce_send (debug o2) t v σ)) as (Hs1 & Hs2);
    [rewrite !gens_announce_send; reflexivity |].
  destruct (obj_throw_gens t e
              (announce_throw (debug o1) t e σ)
              (announce_throw (debug o2) t e σ)) as (Ht1 & Ht2);
    [rewrite !gens_announce_throw; reflexivity |].
  destruct (catch_stopiteration o2).
  - pose proof (catching_gens _ _ _ Hs1 Hs2) as (? & ?).
    pose proof (catching_gens _ _ _ Ht1 Ht2) as (? & ?).
    repeat apply conj; assumption.
  - pose proof (dropping_gens _ _ _ Hs1 Hs2) as (? & ?).
    pose proof (dropping_gens _ _ _ Ht1 Ht2) as (? & ?).
    repeat apply conj; assumption.
Qed.

(** ** Closing *)

Lemma gen_close_eq g σ :
  gen_close body g σ =
    match gens σ !! g with
    | Some (Created _) =>
        (Ret VNone, put_gen g Finished (log (EvClose g) σ))
    | Some (Suspended s) =>
        match body s (Thrown (Exn GeneratorExit [])) with
        | BYield _ s' =>
            (Raise (Exn RuntimeError
                      [VStr "generator ignored GeneratorExit"]),
             put_gen g (Suspended s') (log (EvClose g) σ))
        | BReturn _ =>
            (Ret VNone, put_gen g Finished (log (EvClose g) σ))
        | BRaise e =>
            (if is_GeneratorExit e || is_StopIteration e then Ret VNone
             else Raise e,
             put_gen g Finished (log (EvClose g) σ))
        end
    | Some Finished => (Ret VNone, log (EvClose g) σ)
    | None => (Wrong, log (EvClose g) σ)
    end.
Proof.
  unfold gen_close. unfold_monad. store_simpl.
  destruct (gens σ !! g) as [[s|s|]|]; try reflexivity.
  destruct (body s (Thrown (Exn GeneratorExit []))) as [v' s'|v'|e'];
    try reflexivity.
  destruct (is_GeneratorExit e' || is_StopIteration e'); reflexivity.
Qed.

Lemma do_close_eq self g σ :
  generator self σ = (Ret (Some g), σ) ->
  do_close body self σ = gen_close body g σ.
Proof.
  intros Hg. unfold do_close, close. rewrite !bind_run, Hg. reflexivity.
Qed.

(** X5. A wrapper resolves to a generator and [close] returns.  Then it
    returned [None], the generator has finished and no other generator
    has changed; closing again returns [None] and changes no generator,
    and resuming gives [None] or [StopIteration] as for any finished
    generator.  Closing looks at neither [catch_stopiteration] nor
    [debug]. *)
Theorem close_finishes σ self o g v0 σ1 v :
  wrappers σ !! self = Some o ->
  generator self σ = (Ret (Some g), σ) ->
  do_close body self σ = (Ret v0, σ1) ->
  v0 = VNone /\
  gens σ1 !! g = Some Finished /\
  (forall g', g' <> g -> gens σ1 !! g' = gens σ !! g') /\
  fst (do_close body self σ1) = Ret VNone /\
  gens (snd (do_close body self σ1)) = gens σ1 /\
  fst (resume body self v σ1) =
    (if catch_stopiteration o then Ret VNone
     else Raise (Exn StopIteration [])).
Proof.
  intros Hw Hg Hclose.
  rewrite (do_close_eq _ _ _ Hg), gen_close_eq in Hclose.
  assert (Hshape : v0 = VNone /\ gens σ1 !! g = Some Finished /\
                   wrappers σ1 = wrappers σ /\ weakrefs σ1 = weakrefs σ /\
                   (forall g', g' <> g -> gens σ1 !! g' = gens σ !! g')).
  { destruct (gens σ !! g) as [[s|s|]|] eqn:Hst.
    - injection Hclose as <- <-. cbn. rewrite lookup_insert_eq.
      repeat apply conj; try reflexivity.
      intros g' Hne. apply lookup_insert_ne. congruence.
    - destruct (body s (Thrown (Exn GeneratorExit []))) as [v' s'|v'|e'];
        [discriminate Hclose | |].
      + injection Hclose as <- <-. cbn. rewrite lookup_insert_eq.
        repeat apply conj; try reflexivity.
        intros g' Hne. apply lookup_insert_ne. congruence.
      + destruct (is_GeneratorExit e' || is_StopIteration e');
          [| discriminate Hclose].
        injection Hclose as <- <-. cbn. rewrite lookup_insert_eq.
        repeat apply conj; try reflexivity.
        intros g' Hne. apply lookup_insert_ne. congruence.
    - injection Hclose as <- <-. cbn.
      repeat apply conj; try reflexivity. exact Hst.
    - discriminate Hclose. }
  destruct Hshape as (-> & Hfin & Hws & Hrs & Hothers).
  assert (Hg1 : generator self σ1 = (Ret (Some g), σ1))
    by (apply (generator_after self (Some g) σ σ1 Hg Hws Hrs)).
  repeat apply conj; try assumption; try reflexivity.
  - rewrite (do_close_eq _ _ _ Hg1), gen_close_eq, Hfin. reflexivity.
  - rewrite (do_close_eq _ _ _ Hg1), gen_close_eq, Hfin. reflexivity.
  - apply (resume_finished self o g v σ1); [| exact Hg1 | exact Hfin].
    rewrite Hws. exact Hw.
Qed.

(** ** Collection *)

(** What clearing the weak references to [g] does to the store. *)
Lemma clear_weakrefs_tables g n : forall σ,
  let σ' := snd (clear_weakrefs g n σ) in
  fst (clear_weakrefs g n σ) = Ret () /\
  gens σ' = gens σ /\ wrappers σ' = wrappers σ /\
  (forall r cb, weakrefs σ !! r = Some (Weakref (Some g) cb) -> r < n ->
                weakrefs σ' !! r = Some (Weakref None cb)) /\
  (forall r wr, weakrefs σ !! r = Some wr -> wr_target wr <> Some g ->
                weakrefs σ' !! r = Some wr).
Proof.
  induction n as [|n IH]; intros σ; cbn zeta.
  { cbn. repeat apply conj; try reflexivity; [intros; lia | auto]. }
  cbn [clear_weakrefs]. rewrite bind_run.
  set (step := match weakrefs σ !! n with
               | Some (Weakref (Some g') cb) =>
                   if decide (g' = g) then _ else _
               | _ => _
               end).
  assert (Hstep : exists σ1, step = (Ret (), σ1) /\
            gens σ1 = gens σ /\ wrappers σ1 = wrappers σ /\
            (forall r cb, weakrefs σ !! r = Some (Weakref (Some g) cb) ->
               (r = n -> weakrefs σ1 !! r = Some (Weakref None cb)) /\
               (r <> n -> weakrefs σ1 !! r = Some (Weakref (Some g) cb))) /\
            (forall r wr, weakrefs σ !! r = Some wr ->
               wr_target wr <> Some g -> weakrefs σ1 !! r = Some wr)).
  { subst step.
    destruct (weakrefs σ !! n) as [[[g'|] cb0]|] eqn:Hn.
    2-3: (exists σ; repeat apply conj; try reflexivity; auto;
          intros r cb Hr; split;
          [intros ->; unfold wrid in *; rewrite Hn in Hr; discriminate Hr
          | auto]).
    destruct (decide (g' = g)) as [->|Hne].
    - exists (match cb0 with
              | Some f =>
                  log (EvCallback f n) (put_weakref n (Weakref None cb0) σ)
              | None => put_weakref n (Weakref None cb0) σ
              end).
      destruct cb0; cbn.
      all: repeat apply conj; try reflexivity.
      all: try (intros r cb Hr; split;
                [intros ->; rewrite lookup_insert_eq;
                 unfold wrid in *; rewrite Hn in Hr;
                 injection Hr as <-; reflexivity
                | intros Hrn; rewrite lookup_insert_ne by congruence;
                  exact Hr]).
      all: intros r wr Hr Htg;
        destruct (decide (n = r)) as [<-|Hrn];
        [unfold wrid in *; rewrite Hn in Hr; injection Hr as <-;
         cbn in Htg; congruence
        | rewrite lookup_insert_ne by exact Hrn; exact Hr].
    - exists σ. repeat apply conj; try reflexivity; auto.
      intros r cb Hr. split; [| auto].
      intros ->. unfold wrid in *. rewrite Hn in Hr.
      injection Hr as -> _. contradiction Hne. reflexivity. }
  destruct Hstep as (σ1 & -> & Hg1 & Hw1 & Hhit & Hmiss).
  destruct (IH σ1) as (Hret & Hg2 & Hw2 & Hhit2 & Hmiss2).
  repeat apply conj.
  - exact Hret.
  - rewrite Hg2. exact Hg1.
  - rewrite Hw2. exact Hw1.
  - intros r cb Hr Hlt. destruct (Hhit r cb Hr) as (Heq & Hneq).
    destruct (decide (r = n)) as [Hrn|Hrn].
    + apply Hmiss2; [apply Heq; exact Hrn | cbn; congruence].
    + apply Hhit2; [apply Hneq; exact Hrn | lia].
  - intros r wr Hr Htg. apply Hmiss2; [| exact Htg].
    apply Hmiss; assumption.
Qed.

Lemma collect_unheld σ live g :
  held σ live g = false ->
  let σ' := snd (collect live g σ) in
  fst (collect live g σ) = Ret () /\
  gens σ' !! g = None /\
  (forall g', g' <> g -> gens σ' !! g' = gens σ !! g') /\
  (forall self r c d cb,
     wrappers σ !! self = Some (WeakGeneratorWrapper r c d) ->
     weakrefs σ !! r = Some (Weakref (Some g) cb) ->
     r < next_wrid σ ->
     generator self σ' = (Ret None, σ')) /\
  (forall self r c d wr,
     wrappers σ !! self = Some (WeakGeneratorWrapper r c d) ->
     weakrefs σ !! r = Some wr ->
     wr_target wr <> Some g ->
     generator self σ' = (Ret (wr_target wr), σ')).
Proof.
  intros Hheld. cbn zeta. unfold collect. rewrite Hheld.
  unfold dealloc. rewrite bind_run.
  destruct (clear_weakrefs_tables g (next_wrid σ) σ)
    as (Hret & Hg & Hw & Hhit & Hmiss).
  destruct (clear_weakrefs g (next_wrid σ) σ) as [res σ1].
  cbn in Hret, Hg, Hw, Hhit, Hmiss. subst res.
  unfold_monad. store_simpl.
  repeat apply conj.
  - reflexivity.
  - apply lookup_delete_eq.
  - intros g' Hne. rewrite lookup_delete_ne by congruence.
    rewrite Hg. reflexivity.
  - intros self r c d cb Hself Hr Hlt.
    unfold generator, weakref_call. unfold_monad. store_simpl.
    rewrite Hw, Hself. store_simpl. unfold wrid in *.
    rewrite (Hhit r cb Hr Hlt). reflexivity.
  - intros self r c d wr Hself Hr Htg.
    unfold generator, weakref_call. unfold_monad. store_simpl.
    rewrite Hw, Hself. store_simpl. unfold wrid in *.
    rewrite (Hmiss r wr Hr Htg). reflexivity.
Qed.

(** X6. No living holder holds the generator [g], and the collector
    deals with it.  The generator object is gone; every weak wrapper
    whose weak reference pointed to it now has [None] as its [generator]
    attribute; and a weak wrapper of another generator resolves as
    before. *)
Theorem collected_generator_is_gone σ live g :
  held σ live g = false ->
  let σ' := snd (collect live g σ) in
  fst (collect live g σ) = Ret () /\
  gens σ' !! g = None /\
  (forall g', g' <> g -> gens σ' !! g' = gens σ !! g') /\
  (forall self r c d cb,
     wrappers σ !! self = Some (WeakGeneratorWrapper r c d) ->
     weakrefs σ !! r = Some (Weakref (Some g) cb) ->
     r < next_wrid σ ->
     generator self σ' = (Ret None, σ')) /\
  (forall self r c d wr,
     wrappers σ !! self = Some (WeakGeneratorWrapper r c d) ->
     weakrefs σ !! r = Some wr ->
     wr_target wr <> Some g ->
     generator self σ' = (Ret (wr_target wr), σ')).
Proof. intros Hheld. apply collect_unheld. exact Hheld. Qed.



(** X13. A generator that has not started is resumed through a wrapper
    with a value other than [None]: the caller gets [TypeError],
    whether the wrapper catches [StopIteration] or not, and the
    generator is still not started. *)
Theorem resume_not_started σ self o g s v :
  wrappers σ !! self = Some o ->
  generator self σ = (Ret (Some g), σ) ->
  gens σ !! g = Some (Created s) ->
  is_None v = false ->
  fst (resume body self v σ) =
    Raise (Exn TypeError
             [VStr "can't send non-None value to a just-started generator"])
  /\ gens (snd (resume body self v σ)) !! g = Some (Created s).
Proof.
  intros Hw Hg Hs Hv.
  rewrite (resume_eq _ _ _ _ _ Hg), (_send_eq _ _ _ _ _ _ Hw). cbn zeta.
  unfold except_StopIteration, obj_send. rewrite bind_run, !gen_send_eq.
  unfold gen_resume. rewrite !bind_run. unfold get_gen.
  cbn [gens log]. rewrite gens_announce_send, Hs, Hv.
  destruct (catch_stopiteration o); cbn;
    rewrite gens_announce_send; split; try reflexivity; exact Hs.
Qed.

(** ** Conversions at the edges *)

(** X7. A weak wrapper whose generator is alive is asked for a strong
    variant, by [with_strong_ref] or by calling it.  The new strong
    wrapper has the generator and the flags of the receiver; while it is
    among the living holders the collector leaves the generator alone;
    the receiver still resolves to the generator; and no generator and
    no weak reference has changed. *)
Theorem strong_ref_keeps_alive σ self r c d g cb live :
  wrappers σ !! self = Some (WeakGeneratorWrapper r c d) ->
  weakrefs σ !! r = Some (Weakref (Some g) cb) ->
  self < next_wid σ ->
  exists σ1,
    with_strong_ref self σ = (Ret (next_wid σ), σ1) /\
    call self σ = (Ret (next_wid σ), σ1) /\
    wrappers σ1 !! next_wid σ = Some (StrongGeneratorWrapper (Some g) c d) /\
    gens σ1 = gens σ /\ weakrefs σ1 = weakrefs σ /\
    (In (HWrapper (next_wid σ)) live -> collect live g σ1 = (Ret (), σ1)) /\
    generator self σ1 = (Ret (Some g), σ1).
Proof.
  intros Hw Hr Hlt.
  assert (Hne : next_wid σ <> self) by lia.
  unfold call. rewrite (with_strong_ref_weak _ _ _ _ _ Hw), Hr.
  cbn [wr_target].
  unfold new_StrongGeneratorWrapper, GeneratorWrapperBase_init.
  destruct d; eexists; (split; [reflexivity |]); (split; [reflexivity |]).
  all: unfold_monad; store_simpl.
  all: split; [apply lookup_insert_eq |].
  all: split; [reflexivity |]; split; [reflexivity |].
  all: split;
    [ intros Hin; unfold collect;
      erewrite held_by_strong_wrapper;
        [reflexivity | store_simpl; apply lookup_insert_eq | exact Hin]
    | unfold generator, weakref_call; unfold_monad; store_simpl;
      rewrite lookup_insert_ne by exact Hne; rewrite Hw; store_simpl;
      unfold wrid in *; rewrite Hr; reflexivity ].
Qed.

(** X8. A weak wrapper whose generator is gone is turned into a strong
    wrapper, which succeeds, and that into a weak one again, which
    raises [TypeError], since [None] cannot be weakly referenced; the
    failed conversion leaves the store as it was. *)
Theorem dangling_round_trip_raises σ self r c d cb :
  wrappers σ !! self = Some (WeakGeneratorWrapper r c d) ->
  weakrefs σ !! r = Some (Weakref None cb) ->
  exists σ1,
    with_strong_ref self σ = (Ret (next_wid σ), σ1) /\
    with_weak_ref (next_wid σ) σ1 =
      (Raise (Exn TypeError
                [VStr "cannot create weak reference to 'NoneType' object"]),
       σ1).
Proof.
  intros Hw Hr.
  rewrite (with_strong_ref_weak _ _ _ _ _ Hw), Hr. cbn [wr_target].
  unfold new_StrongGeneratorWrapper, GeneratorWrapperBase_init.
  destruct d; eexists; (split; [reflexivity |]).
  all: unfold_monad; store_simpl.
  all: erewrite with_weak_ref_strong
         by (store_simpl; apply lookup_insert_eq).
  all: reflexivity.
Qed.

(** X9. The [weak_generator] attribute and the [generator] attribute
    agree: when reading [weak_generator] succeeds, calling the weak
    reference it gives is the object the wrapper resolves to.  Reading
    it changes no wrapper and no generator, and on a weak wrapper
    nothing at all. *)
Theorem weak_generator_agrees σ self r σ' :
  weak_generator self σ = (Ret r, σ') ->
  fst (weakref_call r σ') = fst (generator self σ) /\
  wrappers σ' = wrappers σ /\ gens σ' = gens σ /\
  (forall r0 c d, wrappers σ !! self = Some (WeakGeneratorWrapper r0 c d) ->
                  r = r0 /\ σ' = σ).
Proof.
  unfold weak_generator, generator, weakref_ref, weakref_call.
  unfold_monad.
  destruct (wrappers σ !! self) as [[r0 c d|[g|] c d]|]; store_simpl;
    intros H; try discriminate H.
  - injection H as <- <-.
    repeat apply conj; try reflexivity.
    intros ? ? ? [= <- _ _]. split; reflexivity.
  - injection H as <- <-. store_simpl.
    unfold wrid. rewrite lookup_insert_eq.
    repeat apply conj; try reflexivity.
    intros ? ? ? [=].
Qed.

(** ** The launcher, whatever the body does *)

(** X10. The generator the launcher created is parked when the
    launcher returns and finished when the launcher raises; the
    launcher is never stuck.  If the body does not yield at its first
    entry, no wrapper is constructed. *)
Theorem launcher_leaves_generator (func : genfunc St) c cb d args σ :
  let σ' := snd (send_self_wrapper body func c cb d args σ) in
  match fst (send_self_wrapper body func c cb d args σ) with
  | Ret _ => exists s, gens σ' !! next_gid σ = Some (Suspended s)
  | Raise _ => gens σ' !! next_gid σ = Some Finished
  | Wrong => False
  end /\
  match body (func args) (Sent VNone) with
  | BYield _ _ =>
      wrappers σ' =
        <[next_wid σ := WeakGeneratorWrapper (S (next_wrid σ)) c d]>
          (wrappers σ)
  | _ => wrappers σ' = wrappers σ
  end.
Proof.
  rewrite launcher_run. cbn zeta.
  destruct (body (func args) (Sent VNone)) as [v1 s1|r1|e1].
  - destruct (body s1 (Sent (VWrapper (next_wid σ)))) as [v2 s2|r2|e2];
      unfold wrapped; destruct d; cbn; rewrite lookup_insert_eq; eauto.
  - cbn. rewrite lookup_insert_eq. auto.
  - cbn. rewrite lookup_insert_eq. auto.
Qed.

End Further.

(** * The further properties at work *)

Lemma resume_catching_witness :
  fst (resume Demo.body 0 VNone (Demo.launched true)) = Ret (VStr "third").
Proof.
  apply (resume_catching Demo.body (Demo.launched true) 0
           (WeakGeneratorWrapper 1 true false) 0 Demo.N2 VNone);
    vm_compute; reflexivity.
Defined.

Lemma throw_into_uncaught_witness :
  fst (throw_into Demo.body 0 Demo.key_error (Demo.launched false)) =
    Raise Demo.key_error /\
  fst (resume Demo.body 0 VNone
         (snd (throw_into Demo.body 0 Demo.key_error
                 (Demo.launched false)))) =
    Raise (Exn StopIteration []).
Proof.
  destruct (throw_into_uncaught Demo.body (Demo.launched false) 0
              (WeakGeneratorWrapper 1 false false) 0 Demo.N2
              Demo.key_error Demo.key_error VNone)
    as (H1 & _ & H3); try (vm_compute; reflexivity).
  split; [exact H1 | exact H3].
Defined.

Lemma wrappers_interchangeable_witness :
  fst (resume Demo.body 0 VNone Demo.strengthened) =
    fst (resume Demo.body 1 VNone Demo.strengthened) /\
  fst (throw_into Demo.body 0 Demo.type_error Demo.strengthened) =
    fst (throw_into Demo.body 1 Demo.type_error Demo.strengthened).
Proof.
  destruct (wrappers_interchangeable Demo.body Demo.strengthened 0 1
              (WeakGeneratorWrapper 1 true false)
              (StrongGeneratorWrapper (Some 0) true false)
              (Some 0) VNone Demo.type_error)
    as (H1 & _ & H3 & _); try (vm_compute; reflexivity).
  split; [exact H1 | exact H3].
Defined.

Lemma close_finishes_witness :
  gens (snd (do_close Demo.body 0 (Demo.launched true))) !! 0 =
    Some Finished /\
  fst (resume Demo.body 0 VNone
         (snd (do_close Demo.body 0 (Demo.launched true)))) = Ret VNone.
Proof.
  destruct (close_finishes Demo.body (Demo.launched true) 0
              (WeakGeneratorWrapper 1 true false) 0 VNone
              (snd (do_close Demo.body 0 (Demo.launched true))) VNone)
    as (_ & H2 & _ & _ & _ & H6); try (vm_compute; reflexivity).
  split; [exact H2 | exact H6].
Defined.

Lemma collected_generator_is_gone_witness :
  gens (Demo.collected true) !! 0 = None /\
  generator 0 (Demo.collected true) = (Ret None, Demo.collected true).
Proof.
  destruct (collected_generator_is_gone (Demo.launched true) [] 0 eq_refl)
    as (_ & H2 & _ & H4 & _).
  split; [exact H2 |].
  apply (H4 0 1 true false None); [reflexivity | reflexivity |].
  vm_compute. lia.
Defined.

Lemma strong_ref_keeps_alive_witness :
  exists σ1,
    call 0 (Demo.launched true) = (Ret 1, σ1) /\
    collect [HWrapper 1] 0 σ1 = (Ret (), σ1) /\
    generator 0 σ1 = (Ret (Some 0), σ1).
Proof.
  destruct (strong_ref_keeps_alive (Demo.launched true) 0 1 true false 0
              None [HWrapper 1] eq_refl eq_refl)
    as (σ1 & _ & H2 & _ & _ & _ & H6 & H7).
  - vm_compute. lia.
  - exists σ1. repeat apply conj; [exact H2 | | exact H7].
    apply H6. left. reflexivity.
Defined.

Lemma dangling_round_trip_raises_witness :
  exists σ1,
    with_strong_ref 0 (Demo.collected true) = (Ret 1, σ1) /\
    fst (with_weak_ref 1 σ1) =
      Raise (Exn TypeError
               [VStr "cannot create weak reference to 'NoneType' object"]).
Proof.
  destruct (dangling_round_trip_raises (Demo.collected true) 0 1 true false
              None eq_refl eq_refl) as (σ1 & H1 & H2).
  exists σ1. split; [exact H1 |].
  change (next_wid (Demo.collected true)) with 1 in H2.
  rewrite H2. reflexivity.
Defined.

Lemma weak_generator_agrees_witness :
  fst (weakref_call 2 (snd (weak_generator 1 Demo.strengthened))) =
    Ret (Some 0).
Proof.
  destruct (weak_generator_agrees Demo.strengthened 1 2
              (snd (weak_generator 1 Demo.strengthened)))
    as (H1 & _); [vm_compute; reflexivity |].
  rewrite H1. vm_compute. reflexivity.
Defined.


Lemma resume_not_started_witness :
  fst (resume Demo.body 0 (VInt 5) Demo.unstarted) =
    Raise (Exn TypeError
             [VStr "can't send non-None value to a just-started generator"]).
Proof.
  apply (resume_not_started Demo.body Demo.unstarted 0
           (StrongGeneratorWrapper (Some 0) true false) 0 Demo.N0 (VInt 5));
    vm_compute; reflexivity.
Defined.
